(** * Zero-locus extraction engine: a shallow embedding of
      [src/my_dtypes.py], [src/numerical.py], [src/space_curve.py] and
      [src/my_plots.py], with the transfer-matrix algebra of the scripts
      that call them.

    Conventions of the embedding.
    - Python floats are modelled by exact rationals [Q]; rounding, NaN and
      infinities are outside the model.
    - A NumPy array is a shape together with its C-order (row-major) buffer;
      the buffer carries the dtype (float, complex or object).
    - Python exceptions are values of [exception]; a computation returns
      [result A], and computations with effects live in the monad [M]
      (a world holding the object heap, standard output and the windows
      opened so far).
    - SymPy, PyVista/VTK and Matplotlib are external collaborators.  SymPy's
      [subs] and [lambdify] are modelled on a small expression language,
      without SymPy's automatic evaluation.  What the source relies on of
      PyVista's [ImageData] (its setters and its point ordering) is modelled
      directly; the mesh and plotting routines are the fields of the class
      [Backend], about which nothing is assumed unless a statement says
      so. *)

From Stdlib Require Import QArith Qcanon ZArith List String Lia Lqa Field.
From stdpp Require Import base option list gmap strings.
Import ListNotations.

Local Open Scope Z_scope.
Local Open Scope Q_scope.
Local Open Scope list_scope.

(** ** Exceptions and results *)

(** The Python exceptions the modelled code can raise, followed by the three
    error kinds that the design document names.  No definition below
    constructs one of the last three. *)
Inductive exception : Type :=
  | ValueError
  | TypeError
  | NameError
  | KeyError
  | AttributeError
  | SyntaxError
  | ZeroDivisionError
  | FrozenInstanceError
  | SystemError
  | InvalidDomain
  | ConflictingParameter
  | UnresolvedSymbol.

Inductive result (A : Type) : Type :=
  | Ok (a : A)
  | Raise (e : exception).
Arguments Ok {A} a.
Arguments Raise {A} e.

Definition rbind {A B} (r : result A) (k : A -> result B) : result B :=
  match r with
  | Ok a => k a
  | Raise e => Raise e
  end.

Definition is_ok {A} (r : result A) : bool :=
  match r with Ok _ => true | Raise _ => false end.

Global Instance result_ret : MRet result := fun A a => Ok a.
Global Instance result_bind : MBind result := fun A B k r => rbind r k.

(** ** Numbers and arrays *)

Definition Symbol := string.

(** Complex numbers as pairs (real part, imaginary part). *)
Definition C : Type := Q * Q.

Definition Cadd (a b : C) : C := (fst a + fst b, snd a + snd b).
Definition Cmul (a b : C) : C :=
  (fst a * fst b - snd a * snd b, fst a * snd b + snd a * fst b).
Definition Cof (q : Q) : C := (q, 0).

(** A Python number held in a dictionary or written in an expression. *)
Inductive pynum : Type :=
  | PyFloat (q : Q)
  | PyComplex (c : C).

(** SymPy expressions built from symbols, numeric constants (the imaginary
    unit is [Const (PyComplex (0, 1))]), sums and products.  The functions
    [cos], [sin], quotients and powers are outside this fragment, and
    SymPy's automatic evaluation of sums and products (a product with a zero
    factor collapsing to [0], constants being folded) is not modelled: an
    expression stands for the way it is written. *)
Inductive Expr : Type :=
  | Sym (s : Symbol)
  | Const (v : pynum)
  | Add (a b : Expr)
  | Mul (a b : Expr).

(** The element buffer of an array; the constructor is the dtype: [float64],
    [complex128], or [object] for an array whose elements are SymPy
    expressions. *)
Inductive buffer : Type :=
  | FloatBuf (l : list Q)
  | ComplexBuf (l : list C)
  | ObjectBuf (l : list Expr).

Record ndarray : Type := mk_ndarray { shape : list nat; buf : buffer }.

Definition buf_length (b : buffer) : nat :=
  match b with
  | FloatBuf l => length l
  | ComplexBuf l => length l
  | ObjectBuf l => length l
  end.

(** The elements of a numeric buffer read as complex numbers; an object
    buffer has no numeric elements. *)
Definition complex_view (b : buffer) : list C :=
  match b with
  | FloatBuf l => map Cof l
  | ComplexBuf l => l
  | ObjectBuf _ => []
  end.

(** The elements of a buffer as SymPy sees them when an operand is a SymPy
    object: numbers become constants. *)
Definition object_view (b : buffer) : list Expr :=
  match b with
  | FloatBuf l => map (fun q => Const (PyFloat q)) l
  | ComplexBuf l => map (fun c => Const (PyComplex c)) l
  | ObjectBuf l => l
  end.

(** The dtype of a buffer is [object]. *)
Definition is_object_buf (b : buffer) : bool :=
  match b with ObjectBuf _ => true | _ => false end.

Definition size_of (sh : list nat) : nat := fold_right Nat.mul 1%nat sh.

(** A value of shape [[]] with a numeric buffer stands for a Python number,
    and with an object buffer for a bare SymPy object; NumPy's own
    0-dimensional arrays do not arise in the modelled code. *)
Definition scalar (v : pynum) : ndarray :=
  match v with
  | PyFloat q => mk_ndarray [] (FloatBuf [q])
  | PyComplex c => mk_ndarray [] (ComplexBuf [c])
  end.

(** [np.iscomplexobj]: a test on the dtype, not on the values. *)
Definition iscomplexobj (a : ndarray) : bool :=
  match buf a with
  | FloatBuf _ => false
  | ComplexBuf _ => true
  | ObjectBuf _ => false
  end.

(** [np.real] and [np.imag].  An object array is its own real part, and its
    imaginary part is an object array of zeros. *)
Definition np_real (a : ndarray) : ndarray :=
  match buf a with
  | FloatBuf l => a
  | ComplexBuf l => mk_ndarray (shape a) (FloatBuf (map fst l))
  | ObjectBuf l => a
  end.

Definition np_imag (a : ndarray) : ndarray :=
  match buf a with
  | FloatBuf l => mk_ndarray (shape a) (FloatBuf (map (fun _ => 0) l))
  | ComplexBuf l => mk_ndarray (shape a) (FloatBuf (map snd l))
  | ObjectBuf l => mk_ndarray (shape a) (ObjectBuf (map (fun _ => Const (PyFloat 0)) l))
  end.

(** [np.linspace(start, stop, num)] with [endpoint=True]: [arange(num) * step
    + start], the last sample overwritten by [stop]; a negative [num] is a
    [ValueError]. *)
Definition set_last (y : list Q) (stop : Q) : list Q :=
  removelast y ++ [stop].

Definition linspace (start stop : Q) (num : Z) : result (list Q) :=
  if (num <? 0)%Z then Raise ValueError
  else
    let div := (num - 1)%Z in
    let delta := stop - start in
    let idx := map (fun i : nat => inject_Z (Z.of_nat i)) (seq 0 (Z.to_nat num)) in
    let y :=
      if (0 <? div)%Z
      then map (fun t => t * (delta / inject_Z div) + start) idx
      else map (fun t => t * delta + start) idx in
    Ok (if (1 <? num)%Z then set_last y stop else y).

(** [np.meshgrid(x, y, z, indexing="ij")]: three arrays of shape
    [(len x, len y, len z)] with [X[i,j,k] = x[i]], [Y[i,j,k] = y[j]],
    [Z[i,j,k] = z[k]]. *)
Definition mesh_fill (pick : Q -> Q -> Q -> Q) (x y z : list Q) : list Q :=
  flat_map (fun xi => flat_map (fun yj => map (fun zk => pick xi yj zk) z) y) x.

Definition meshgrid_ij (x y z : list Q) : ndarray * ndarray * ndarray :=
  let sh := [length x; length y; length z] in
  (mk_ndarray sh (FloatBuf (mesh_fill (fun xi _ _ => xi) x y z)),
   mk_ndarray sh (FloatBuf (mesh_fill (fun _ yj _ => yj) x y z)),
   mk_ndarray sh (FloatBuf (mesh_fill (fun _ _ zk => zk) x y z))).

(** [np.meshgrid(x, y)] with the default [indexing="xy"]: two arrays of shape
    [(len y, len x)] with [X[r,c] = x[c]] and [Y[r,c] = y[r]]. *)
Definition meshgrid_xy (x y : list Q) : ndarray * ndarray :=
  let sh := [length y; length x] in
  (mk_ndarray sh (FloatBuf (flat_map (fun _ => x) y)),
   mk_ndarray sh (FloatBuf (flat_map (fun yj => map (fun _ => yj) x) y))).

(** [a.flatten(order="F")]: the elements with the first index varying
    fastest.  The C-order buffer of shape [d :: rest] is [d] blocks of
    [size_of rest] elements; each block is flattened and the blocks are
    interleaved. *)
Definition chunks {A} (d m : nat) (l : list A) : list (list A) :=
  map (fun i => firstn m (skipn (i * m) l)) (seq 0 d).

Definition column {A} (rows : list (list A)) (c : nat) : list A :=
  flat_map (fun row => match row !! c with Some v => [v] | None => [] end) rows.

Definition transpose {A} (m : nat) (rows : list (list A)) : list (list A) :=
  map (column rows) (seq 0 m).

Fixpoint flatten_F {A} (sh : list nat) (l : list A) : list A :=
  match sh with
  | [] => l
  | d :: rest =>
      concat (transpose (size_of rest) (map (flatten_F rest) (chunks d (size_of rest) l)))
  end.

Definition flatten_order_F (a : ndarray) : ndarray :=
  match buf a with
  | FloatBuf l => mk_ndarray [size_of (shape a)] (FloatBuf (flatten_F (shape a) l))
  | ComplexBuf l => mk_ndarray [size_of (shape a)] (ComplexBuf (flatten_F (shape a) l))
  | ObjectBuf l => mk_ndarray [size_of (shape a)] (ObjectBuf (flatten_F (shape a) l))
  end.

(** The method call [v.flatten(order="F")] on the result of [np.real] or
    [np.imag].  Of a Python number these are Python numbers, which have no
    such method; of a bare SymPy object they are 0-dimensional object
    arrays, which have it. *)
Definition call_flatten (v : ndarray) : result ndarray :=
  match shape v with
  | [] => if is_object_buf (buf v) then Ok (flatten_order_F v) else Raise AttributeError
  | _ => Ok (flatten_order_F v)
  end.

(** Python's true division of a float by an int. *)
Definition truediv (a : Q) (b : Z) : result Q :=
  if (b =? 0)%Z then Raise ZeroDivisionError else Ok (a / inject_Z b).

(** ** SymPy: expressions, [subs] and [lambdify] *)

Fixpoint free_symbols (e : Expr) : list Symbol :=
  match e with
  | Sym s => [s]
  | Const _ => []
  | Add a b | Mul a b => free_symbols a ++ free_symbols b
  end.

(** A Python [dict] from symbols to numbers, in insertion order. *)
Definition dict : Type := list (Symbol * pynum).

Fixpoint dict_get {V} (d : list (Symbol * V)) (k : Symbol) : option V :=
  match d with
  | [] => None
  | (k', v) :: rest => if decide (k' = k) then Some v else dict_get rest k
  end.

Definition dict_keys (d : dict) : list Symbol := map fst d.

(** [k in d] *)
Definition dict_contains (d : dict) (k : Symbol) : bool :=
  match dict_get d k with Some _ => true | None => false end.

(** [d[k]] *)
Definition dict_getitem (d : dict) (k : Symbol) : result pynum :=
  match dict_get d k with Some v => Ok v | None => Raise KeyError end.

(** [x in l] for a list of symbols. *)
Definition symbol_in (s : Symbol) (l : list Symbol) : bool :=
  bool_decide (s ∈ l).

Fixpoint subs_dict (d : dict) (e : Expr) : Expr :=
  match e with
  | Sym s => match dict_get d s with Some v => Const v | None => Sym s end
  | Const v => Const v
  | Add a b => Add (subs_dict d a) (subs_dict d b)
  | Mul a b => Mul (subs_dict d a) (subs_dict d b)
  end.

(** [expr.subs(arg)] with a single argument: a mapping is applied; [None] is
    neither a mapping nor an iterable, and SymPy raises [ValueError]. *)
Definition Expr_subs (e : Expr) (arg : option dict) : result Expr :=
  match arg with
  | Some d => Ok (subs_dict d e)
  | None => Raise ValueError
  end.

(** Elementwise binary operations with NumPy's dtype promotion.  Only the
    broadcasting used here is modelled: equal shapes, or one operand a
    scalar.  When an operand is a SymPy object or an object array, the
    result is built elementwise by SymPy's own operation. *)
Definition broadcast2 {A} (op : A -> A -> A)
    (sa : list nat) (la : list A) (sb : list nat) (lb : list A)
  : result (list nat * list A) :=
  if decide (sa = sb) then Ok (sa, zip_with op la lb)
  else if decide (sa = []) then
    match la with
    | [v] => Ok (sb, map (op v) lb)
    | _ => Raise ValueError
    end
  else if decide (sb = []) then
    match lb with
    | [v] => Ok (sa, map (fun u => op u v) la)
    | _ => Raise ValueError
    end
  else Raise ValueError.

Definition np_binop (fop : Q -> Q -> Q) (cop : C -> C -> C)
    (oop : Expr -> Expr -> Expr) (a b : ndarray) : result ndarray :=
  if is_object_buf (buf a) || is_object_buf (buf b) then
    '(sh, l) ← broadcast2 oop (shape a) (object_view (buf a)) (shape b) (object_view (buf b));
    Ok (mk_ndarray sh (ObjectBuf l))
  else
    match buf a, buf b with
    | FloatBuf la, FloatBuf lb =>
        '(sh, l) ← broadcast2 fop (shape a) la (shape b) lb;
        Ok (mk_ndarray sh (FloatBuf l))
    | ba, bb =>
        '(sh, l) ← broadcast2 cop (shape a) (complex_view ba) (shape b) (complex_view bb);
        Ok (mk_ndarray sh (ComplexBuf l))
    end.

(** The body of a generated function.  A name is looked up among the
    arguments first; [lambdify] also puts every symbol of the expression
    into the namespace of the generated function, bound to the [Symbol]
    itself, so a name that is not an argument evaluates to that SymPy
    object.  Operands are evaluated left to right. *)
Fixpoint eval (env : list (Symbol * ndarray)) (e : Expr) : result ndarray :=
  match e with
  | Sym s =>
      match dict_get env s with
      | Some v => Ok v
      | None => Ok (mk_ndarray [] (ObjectBuf [Sym s]))
      end
  | Const v => Ok (scalar v)
  | Add a b => va ← eval env a; vb ← eval env b; np_binop Qplus Cadd Add va vb
  | Mul a b => va ← eval env a; vb ← eval env b; np_binop Qmult Cmul Mul va vb
  end.

(** A numeric function of positional array arguments. *)
Definition Callable : Type := list ndarray -> result ndarray.

(** [lambdify(params, expr, modules=["numpy"])].  Generating the function
    never checks the free symbols of [expr] against [params]; a repeated
    parameter name is a [SyntaxError] in the generated [def]. *)
Definition lambdify (params : list Symbol) (e : Expr) : result Callable :=
  if bool_decide (NoDup params) then
    Ok (fun args =>
          if (length args =? length params)%nat
          then eval (zip params args) e
          else Raise TypeError)
  else Raise SyntaxError.

(** Elementwise application of a scalar function to three buffers. *)
Definition map3 {X} (f : Q -> Q -> Q -> X) (xs ys zs : list Q) : list X :=
  zip_with (fun g z => g z) (zip_with f xs ys) zs.

(** A callable is the compiled form of the scalar function [f] of three
    axes when, on three float arrays of one shape, it returns an array of
    that shape holding [f] of the corresponding elements (as a float array
    only if every value is real). *)
Definition compiled3 (F : Callable) (f : Q -> Q -> Q -> C) : Prop :=
  forall sh xs ys zs,
    length xs = size_of sh -> length ys = size_of sh -> length zs = size_of sh ->
    exists b,
      F [mk_ndarray sh (FloatBuf xs); mk_ndarray sh (FloatBuf ys);
         mk_ndarray sh (FloatBuf zs)] = Ok (mk_ndarray sh b)
      /\ complex_view b = map3 f xs ys zs.

(** The complex-valued callable that applies [f] elementwise. *)
Definition vectorize3 (f : Q -> Q -> Q -> C) : Callable :=
  fun args =>
    match args with
    | [X; Y; Z] =>
        match buf X, buf Y, buf Z with
        | FloatBuf xs, FloatBuf ys, FloatBuf zs =>
            Ok (mk_ndarray (shape X) (ComplexBuf (map3 f xs ys zs)))
        | _, _, _ => Raise TypeError
        end
    | _ => Raise TypeError
    end.

(** ** [src/my_dtypes.py] *)

(** A reference to a heap object, or [None]. *)
Inductive pyref : Type :=
  | PyNone
  | PyRef (l : positive).

Module ParamSpace3D.
Record t : Type := mk {
  x : Symbol;
  x_range : Q * Q;
  y : Symbol;
  y_range : Q * Q;
  z : Symbol;
  z_range : Q * Q;
  x_resolution : Z;
  y_resolution : Z;
  z_resolution : Z;
  fixed_param : pyref
}.

(** The generated [__init__]: the last four arguments are optional. *)
Definition init (x : Symbol) (x_range : Q * Q) (y : Symbol) (y_range : Q * Q)
    (z : Symbol) (z_range : Q * Q)
    (x_resolution y_resolution z_resolution : option Z)
    (fixed_param : option pyref) : result t :=
  Ok (mk x x_range y y_range z z_range
        (default 50%Z x_resolution)
        (default 50%Z y_resolution)
        (default 50%Z z_resolution)
        (default PyNone fixed_param)).

(** The values an attribute could be assigned. *)
Inductive value : Type :=
  | VSymbol (s : Symbol)
  | VRange (r : Q * Q)
  | VInt (n : Z)
  | VRef (r : pyref).

(** [__setattr__] as generated by [@dataclass(frozen=True)]. *)
Definition setattr (self : t) (name : string) (v : value) : result t :=
  Raise FrozenInstanceError.
End ParamSpace3D.

(** ** PyVista / VTK and Matplotlib *)

(** [pv.ImageData]: a uniform lattice.  Point [p] has structured index
    [(p mod nx, (p / nx) mod ny, p / (nx * ny))], the x index varying
    fastest, and position [origin + index * spacing]. *)
Record ImageData : Type := mk_ImageData {
  dimensions : Z * Z * Z;
  origin : Q * Q * Q;
  spacing : Q * Q * Q;
  point_data : gmap string ndarray;
  cell_data : gmap string ndarray
}.

Definition ImageData_new : ImageData :=
  mk_ImageData (0, 0, 0)%Z (0, 0, 0) (1, 1, 1) ∅ ∅.

Definition set_dimensions (g : ImageData) (d : Z * Z * Z) : ImageData :=
  mk_ImageData d (origin g) (spacing g) (point_data g) (cell_data g).
Definition set_origin (g : ImageData) (o : Q * Q * Q) : ImageData :=
  mk_ImageData (dimensions g) o (spacing g) (point_data g) (cell_data g).

(** The setter of [grid.spacing] refuses a negative component. *)
Definition set_spacing (g : ImageData) (s : Q * Q * Q) : result ImageData :=
  let '(sx, sy, sz) := s in
  if Qle_bool 0 sx && Qle_bool 0 sy && Qle_bool 0 sz
  then Ok (mk_ImageData (dimensions g) (origin g) s (point_data g) (cell_data g))
  else Raise ValueError.
Arguments set_spacing : simpl never.

Definition n_points (g : ImageData) : Z :=
  let '(nx, ny, nz) := dimensions g in (nx * ny * nz)%Z.

Definition n_cells (g : ImageData) : Z :=
  let '(nx, ny, nz) := dimensions g in
  if ((nx <=? 0) || (ny <=? 0) || (nz <=? 0))%Z then 0%Z
  else (Z.max (nx - 1) 1 * Z.max (ny - 1) 1 * Z.max (nz - 1) 1)%Z.

(** [grid[name] = scalars]: the array becomes point data when its length is
    the number of points, cell data when it is the number of cells, and is
    refused otherwise. *)
Definition ImageData_setitem (g : ImageData) (name : string) (scalars : ndarray)
  : result ImageData :=
  match shape scalars with
  | [] => Raise ValueError
  | len :: _ =>
      if (Z.of_nat len =? n_points g)%Z then
        Ok (mk_ImageData (dimensions g) (origin g) (spacing g)
              (<[name := scalars]> (point_data g)) (cell_data g))
      else if (Z.of_nat len =? n_cells g)%Z then
        Ok (mk_ImageData (dimensions g) (origin g) (spacing g)
              (point_data g) (<[name := scalars]> (cell_data g)))
      else Raise ValueError
  end.

(** The id of the lattice point with structured index [(i, j, k)]. *)
Definition point_id (g : ImageData) (i j k : nat) : nat :=
  let '(nx, ny, _) := dimensions g in
  (i + Z.to_nat nx * (j + Z.to_nat ny * k))%nat.

Definition structured_index (g : ImageData) (p : nat) : nat * nat * nat :=
  let '(nx, ny, _) := dimensions g in
  (p mod Z.to_nat nx, (p / Z.to_nat nx) mod Z.to_nat ny,
   p / (Z.to_nat nx * Z.to_nat ny))%nat.


(** The value of the point-data array [name] at point [p]. *)
Definition point_scalar (g : ImageData) (name : string) (p : nat) : option Q :=
  match point_data g !! name with
  | Some a =>
      match buf a with
      | FloatBuf l => l !! p
      | ComplexBuf _ => None
      | ObjectBuf _ => None
      end
  | None => None
  end.

(** The mesh and plotting routines of the external collaborators.  Every
    routine is a function of its arguments (a deterministic backend) and may
    raise. *)
Class Backend : Type := {
  PolyData : Type;
  Plotter : Type;
  Figure : Type;
  (** [mesh.n_points] *)
  mesh_n_points : PolyData -> nat;
  (** [grid.contour(isosurfaces=levels, scalars=name)] *)
  contour : ImageData -> list Q -> string -> result PolyData;
  (** [a.intersection(b, split_first=sf, split_second=ss)] *)
  intersection : PolyData -> PolyData -> bool -> bool
                 -> result (PolyData * PolyData * PolyData);
  (** [pv.Plotter()] and its methods *)
  Plotter_new : Plotter;
  set_scale : Plotter -> Q -> Q -> Q -> result Plotter;
  add_mesh : Plotter -> PolyData -> Q -> result Plotter;
  Box : Q * Q * Q * Q * Q * Q -> PolyData;
  show_bounds : Plotter -> Symbol -> Symbol -> Symbol -> result Plotter;
  add_legend : Plotter -> result Plotter;
  add_text : Plotter -> Symbol -> Symbol -> Symbol -> result Plotter;
  (** [plt.subplots(figsize=(10, 8))] and the axes methods *)
  subplots : Figure;
  Axes_contour : Figure -> ndarray -> ndarray -> ndarray -> list Q -> result Figure;
  Axes_decorate : Figure -> Symbol -> Symbol -> option string -> Expr -> Figure
}.

Section Engine.
Context `{B : Backend}.

(** ** The world: heap, standard output, windows *)

Record World : Type := mk_World {
  heap : gmap positive dict;
  stdout : list string;
  shown : list Plotter;
  open_figures : list Figure
}.

Definition M (A : Type) : Type := World -> result A * World.

Definition ret {A} (a : A) : M A := fun w => (Ok a, w).

Definition bind {A C} (m : M A) (k : A -> M C) : M C :=
  fun w =>
    match m w with
    | (Ok a, w') => k a w'
    | (Raise e, w') => (Raise e, w')
    end.

Definition lift {A} (r : result A) : M A := fun w => (r, w).

Global Instance M_ret : MRet M := @ret.
Global Instance M_bind : MBind M := fun A C k m => bind m k.

(** Reading a [dict] through a reference; a reference outside the heap
    does not arise in Python. *)
Definition deref (l : positive) : M dict :=
  fun w =>
    match heap w !! l with
    | Some d => (Ok d, w)
    | None => (Raise SystemError, w)
    end.

(** The object behind an attribute that holds a [dict] or [None]. *)
Definition read_dict (r : pyref) : M (option dict) :=
  match r with
  | PyNone => mret None
  | PyRef l => d ← deref l; mret (Some d)
  end.

(** [print(s)] *)
Definition print (s : string) : M unit :=
  fun w => (Ok tt, mk_World (heap w) (stdout w ++ [s]) (shown w) (open_figures w)).

(** [plotter.show()] *)
Definition Plotter_show (p : Plotter) : M unit :=
  fun w => (Ok tt, mk_World (heap w) (stdout w) (shown w ++ [p]) (open_figures w)).

(** [plt.subplots(...)] registers the new figure with pyplot. *)
Definition plt_subplots : M Figure :=
  fun w => (Ok subplots,
            mk_World (heap w) (stdout w) (shown w) (open_figures w ++ [subplots])).

(** ** [src/numerical.py] *)

Definition get_numpy_func (expr : Expr) (param_space : ParamSpace3D.t) : M Callable :=
  fixed_param ← read_dict (ParamSpace3D.fixed_param param_space);
  expr_substituted ← lift (Expr_subs expr fixed_param);
  let params := [ParamSpace3D.x param_space;
                 ParamSpace3D.y param_space;
                 ParamSpace3D.z param_space] in
  numpy_func ← lift (lambdify params expr_substituted);
  mret numpy_func.

(** ** [src/space_curve.py] *)

(** Python's [max] of three floats keeps the earliest of equal maxima. *)
Definition max3 (a b c : Q) : Q :=
  let m := if Qle_bool b a then a else b in
  if Qle_bool c m then m else c.

(** The first part of [vis_complex_equation], up to the attachment of the
    two scalar fields: the structured grid carrying ["real"] and ["imag"]. *)
Definition sample_grid (numpy_func : Callable) (param_space : ParamSpace3D.t)
  : result ImageData :=
  let x_len := snd (ParamSpace3D.x_range param_space) - fst (ParamSpace3D.x_range param_space) in
  let y_len := snd (ParamSpace3D.y_range param_space) - fst (ParamSpace3D.y_range param_space) in
  let z_len := snd (ParamSpace3D.z_range param_space) - fst (ParamSpace3D.z_range param_space) in
  x ← linspace (fst (ParamSpace3D.x_range param_space))
               (snd (ParamSpace3D.x_range param_space))
               (ParamSpace3D.x_resolution param_space);
  y ← linspace (fst (ParamSpace3D.y_range param_space))
               (snd (ParamSpace3D.y_range param_space))
               (ParamSpace3D.y_resolution param_space);
  z ← linspace (fst (ParamSpace3D.z_range param_space))
               (snd (ParamSpace3D.z_range param_space))
               (ParamSpace3D.z_resolution param_space);
  let '(coord_x_mat, coord_y_mat, coord_z_mat) := meshgrid_ij x y z in
  values ← numpy_func [coord_x_mat; coord_y_mat; coord_z_mat];
  let real_part := np_real values in
  let imag_part := np_imag values in
  let grid := ImageData_new in
  let grid := set_dimensions grid (ParamSpace3D.x_resolution param_space,
                                   ParamSpace3D.y_resolution param_space,
                                   ParamSpace3D.z_resolution param_space) in
  let grid := set_origin grid (fst (ParamSpace3D.x_range param_space),
                               fst (ParamSpace3D.y_range param_space),
                               fst (ParamSpace3D.z_range param_space)) in
  sx ← truediv x_len (ParamSpace3D.x_resolution param_space - 1);
  sy ← truediv y_len (ParamSpace3D.y_resolution param_space - 1);
  sz ← truediv z_len (ParamSpace3D.z_resolution param_space - 1);
  grid ← set_spacing grid (sx, sy, sz);
  real_flat ← call_flatten real_part;
  grid ← ImageData_setitem grid "real" real_flat;
  imag_flat ← call_flatten imag_part;
  grid ← ImageData_setitem grid "imag" imag_flat;
  Ok grid.

(** The [if plot:] block. *)
Definition render (param_space : ParamSpace3D.t) (curve : PolyData) : M unit :=
  let x_len := snd (ParamSpace3D.x_range param_space) - fst (ParamSpace3D.x_range param_space) in
  let y_len := snd (ParamSpace3D.y_range param_space) - fst (ParamSpace3D.y_range param_space) in
  let z_len := snd (ParamSpace3D.z_range param_space) - fst (ParamSpace3D.z_range param_space) in
  let plotter := Plotter_new in
  let max_len := max3 x_len y_len z_len in
  plotter ← lift (set_scale plotter
                    (if negb (Qeq_bool x_len 0) then max_len / x_len else 1)
                    (if negb (Qeq_bool y_len 0) then max_len / y_len else 1)
                    (if negb (Qeq_bool z_len 0) then max_len / z_len else 1));
  plotter ← lift (add_mesh plotter curve 1);
  let bounds_box := Box (fst (ParamSpace3D.x_range param_space),
                         snd (ParamSpace3D.x_range param_space),
                         fst (ParamSpace3D.y_range param_space),
                         snd (ParamSpace3D.y_range param_space),
                         fst (ParamSpace3D.z_range param_space),
                         snd (ParamSpace3D.z_range param_space)) in
  plotter ← lift (add_mesh plotter bounds_box 0);
  plotter ← lift (show_bounds plotter (ParamSpace3D.x param_space)
                    (ParamSpace3D.y param_space) (ParamSpace3D.z param_space));
  plotter ← lift (add_legend plotter);
  plotter ← lift (add_text plotter (ParamSpace3D.x param_space)
                    (ParamSpace3D.y param_space) (ParamSpace3D.z param_space));
  Plotter_show plotter.

Definition vis_complex_equation (numpy_func : Callable)
    (param_space : ParamSpace3D.t) (plot : bool)
  : M (PolyData * PolyData * PolyData) :=
  grid ← lift (sample_grid numpy_func param_space);
  real_contour ← lift (contour grid [0] "real");
  imag_contour ← lift (contour grid [0] "imag");
  '(curve, first_face, second_face) ←
     lift (intersection real_contour imag_contour false false);
  _ ← (if plot then render param_space curve else mret tt);
  mret (curve, first_face, second_face).

(** ** [src/my_plots.py] *)

(** The [for param in all_params:] loop, threading [lambda_params] and
    [fixed_values]. *)
Fixpoint collect_params (param_x param_y : Symbol) (fixed_params : dict)
    (all_params : list Symbol) (lambda_params : list Symbol)
    (fixed_values : list pynum) : result (list Symbol * list pynum) :=
  match all_params with
  | [] => Ok (lambda_params, fixed_values)
  | param :: rest =>
      if negb (symbol_in param [param_x; param_y]) then
        if negb (dict_contains fixed_params param) then Raise ValueError
        else
          v ← dict_getitem fixed_params param;
          collect_params param_x param_y fixed_params rest
            (lambda_params ++ [param]) (fixed_values ++ [v])
      else collect_params param_x param_y fixed_params rest lambda_params fixed_values
  end.

Definition warning : string := "警告：函数返回复数值，仅绘制实部".

Definition plot_zero_contours (func : Expr) (param_x param_y : Symbol)
    (x_range y_range : Q * Q) (fixed_params : positive)
    (resolution : Z) (title : option string) (levels : list Q) : M Figure :=
  fp ← deref fixed_params;
  let all_params := [param_x; param_y] ++ dict_keys fp in
  '(lambda_params, fixed_values) ←
     lift (collect_params param_x param_y fp all_params [param_x; param_y] []);
  func_numeric ← lift (lambdify lambda_params func);
  x ← lift (linspace (fst x_range) (snd x_range) resolution);
  y ← lift (linspace (fst y_range) (snd y_range) resolution);
  let '(X, Y) := meshgrid_xy x y in
  Z ← lift (func_numeric (X :: Y :: map scalar fixed_values));
  Z ← (if iscomplexobj Z
       then _ ← print warning; mret (np_real Z)
       else mret Z);
  fig ← plt_subplots;
  fig ← lift (Axes_contour fig X Y Z levels);
  mret (Axes_decorate fig param_x param_y title func).

(** ** Worlds, library contracts and outcomes *)

(** The world before anything has run, with the given heap. *)
Definition initial_world (h : gmap positive dict) : World :=
  mk_World h [] [] [].

(** The three library calls between the attachment of the fields and the
    return: the two level-0 isosurfaces and their intersection. *)
Definition intersect_isosurfaces (grid : ImageData)
  : result (PolyData * PolyData * PolyData) :=
  real_contour ← contour grid [0] "real";
  imag_contour ← contour grid [0] "imag";
  intersection real_contour imag_contour false false.




(** The scalar field handed to the contouring routine, and what is printed
    on the way. *)
Definition narrowed (Zv : ndarray) : ndarray :=
  if iscomplexobj Zv then np_real Zv else Zv.

Definition narrowing_output (Zv : ndarray) : list string :=
  if iscomplexobj Zv then [warning] else [].

(** The outcome of the planar extractor as a function of its arguments and
    the dictionary. *)
Definition planar_outcome (func : Expr) (px py : Symbol) (xr yr : Q * Q)
    (d : dict) (res : Z) (title : option string) (levels : list Q) : result Figure :=
  '(lp, fv) ← collect_params px py d ([px; py] ++ dict_keys d) [px; py] [];
  fn ← lambdify lp func;
  xs ← linspace (fst xr) (snd xr) res;
  ys ← linspace (fst yr) (snd yr) res;
  Zv ← fn ((meshgrid_xy xs ys).1 :: (meshgrid_xy xs ys).2 :: map scalar fv);
  fig ← Axes_contour subplots (meshgrid_xy xs ys).1 (meshgrid_xy xs ys).2
          (narrowed Zv) levels;
  Ok (Axes_decorate fig px py title func).

(** A computation that leaves every heap object as it found it. *)
Definition keeps_heap {A} (m : M A) : Prop :=
  forall w, heap (snd (m w)) = heap w.

End Engine.

(** ** Index arithmetic and the sampled grid *)

(** The position of the element with index tuple [idx] in the Fortran-order
    flattening and in the C-order buffer of an array of shape [sh]. *)
Fixpoint f_index (sh idx : list nat) : nat :=
  match sh, idx with
  | d :: rest, i :: idx' => (i + d * f_index rest idx')%nat
  | _, _ => 0%nat
  end.

Fixpoint c_index (sh idx : list nat) : nat :=
  match sh, idx with
  | _ :: rest, i :: idx' => (i * size_of rest + c_index rest idx')%nat
  | _, _ => 0%nat
  end.

Fixpoint in_range (sh idx : list nat) : Prop :=
  match sh, idx with
  | [], [] => True
  | d :: rest, i :: idx' => (i < d)%nat /\ in_range rest idx'
  | _, _ => False
  end.

(** The resolutions the design document calls valid. *)
Definition valid_resolutions (ps : ParamSpace3D.t) : Prop :=
  (2 <= ParamSpace3D.x_resolution ps)%Z /\
  (2 <= ParamSpace3D.y_resolution ps)%Z /\
  (2 <= ParamSpace3D.z_resolution ps)%Z.

(** Every range is given as (minimum, maximum). *)
Definition ascending (ps : ParamSpace3D.t) : Prop :=
  fst (ParamSpace3D.x_range ps) <= snd (ParamSpace3D.x_range ps)
  /\ fst (ParamSpace3D.y_range ps) <= snd (ParamSpace3D.y_range ps)
  /\ fst (ParamSpace3D.z_range ps) <= snd (ParamSpace3D.z_range ps).

(** The grid [sample_grid] builds from the values [b] returned by the
    callable. *)
Definition grid_of (ps : ParamSpace3D.t) (b : buffer) : ImageData :=
  let sh := [Z.to_nat (ParamSpace3D.x_resolution ps);
             Z.to_nat (ParamSpace3D.y_resolution ps);
             Z.to_nat (ParamSpace3D.z_resolution ps)] in
  let field part := mk_ndarray [size_of sh] (FloatBuf (flatten_F sh (map part (complex_view b)))) in
  mk_ImageData
    (ParamSpace3D.x_resolution ps, ParamSpace3D.y_resolution ps,
     ParamSpace3D.z_resolution ps)
    (fst (ParamSpace3D.x_range ps), fst (ParamSpace3D.y_range ps),
     fst (ParamSpace3D.z_range ps))
    ((snd (ParamSpace3D.x_range ps) - fst (ParamSpace3D.x_range ps))
       / inject_Z (ParamSpace3D.x_resolution ps - 1),
     (snd (ParamSpace3D.y_range ps) - fst (ParamSpace3D.y_range ps))
       / inject_Z (ParamSpace3D.y_resolution ps - 1),
     (snd (ParamSpace3D.z_range ps) - fst (ParamSpace3D.z_range ps))
       / inject_Z (ParamSpace3D.z_resolution ps - 1))
    (<["imag" := field snd]> (<["real" := field fst]> ∅))
    ∅.

(** ** A reference backend

    A small executable collaborator used to run the engine on concrete
    inputs.  A mesh is the list of point ids at which the field crosses a
    level between that point and the next one (none for a field without
    numeric values).  The intersection keeps the ids common to both meshes;
    like VTK's filter, which stops when it finds no intersection, it then
    leaves all three outputs empty, in particular when an input is empty.
    A plotter refuses a mesh without points, as PyVista's does; the
    contouring of the axes refuses an object array, which Matplotlib cannot
    convert to floats.  Plotters and figures log what they are given. *)

Definition crosses (levels : list Q) (a b : Q) : bool :=
  existsb (fun lv => (negb (Qle_bool lv a) && Qle_bool lv b)
                     || (negb (Qle_bool lv b) && Qle_bool lv a)) levels.

Definition crossings (levels : list Q) (l : list Q) : list nat :=
  List.filter
    (fun p => match l !! p, l !! S p with
              | Some a, Some b => crosses levels a b
              | _, _ => false
              end)
    (seq 0 (length l)).

Definition reference_contour (g : ImageData) (levels : list Q) (name : string)
  : result (list nat) :=
  match point_data g !! name with
  | Some a => Ok (crossings levels (map fst (complex_view (buf a))))
  | None => Raise KeyError
  end.

Definition reference_intersection (a b : list nat) (split_first split_second : bool)
  : result (list nat * list nat * list nat) :=
  match List.filter (fun p => bool_decide (p ∈ b)) a with
  | [] => Ok ([], [], [])
  | curve => Ok (curve, a, b)
  end.

Definition reference_backend : Backend := {|
  PolyData := list nat;
  Plotter := list string;
  Figure := list ndarray;
  mesh_n_points := @length nat;
  contour := reference_contour;
  intersection := reference_intersection;
  Plotter_new := [];
  set_scale := fun p _ _ _ => Ok (p ++ ["set_scale"%string]);
  add_mesh := fun p mesh _ =>
    match mesh with
    | [] => Raise ValueError
    | _ => Ok (p ++ ["add_mesh"%string])
    end;
  Box := fun _ => seq 0 8;
  show_bounds := fun p _ _ _ => Ok (p ++ ["show_bounds"%string]);
  add_legend := fun p => Ok (p ++ ["add_legend"%string]);
  add_text := fun p _ _ _ => Ok (p ++ ["add_text"%string]);
  subplots := [];
  Axes_contour := fun fig _ _ Zv _ =>
    match shape Zv with
    | [_; _] => if is_object_buf (buf Zv) then Raise TypeError else Ok (fig ++ [Zv])
    | _ => Raise TypeError
    end;
  Axes_decorate := fun fig _ _ _ _ => fig
|}.

(** ** Concrete inputs *)

(** [f(x, y, z) = (x - 1) + i (y - 2)] *)
Definition plane_pair (x y z : Q) : C := (x - 1, y - 2).

(** A 2 x 3 x 4 lattice over [0,1] x [0,2] x [-1,1]. *)
Definition box_2_3_4 : ParamSpace3D.t :=
  ParamSpace3D.mk "x" (0, 1) "y" (0, 2) "z" (-1, 1) 2 3 4 PyNone.

(** The same box with a single sample along x. *)
Definition box_1_2_2 : ParamSpace3D.t :=
  ParamSpace3D.mk "x" (0, 1) "y" (0, 2) "z" (-1, 1) 1 2 2 PyNone.

(** ** Predicates of the statements *)





(** A value fits the shape [sh] when it has that shape or is a scalar. *)
Definition fits (sh : list nat) (v : ndarray) : Prop :=
  shape v = sh \/ (shape v = [] /\ buf_length (buf v) = 1%nat).

(** The function the compiler returns for a dictionary [d]. *)
Definition compiled_body (ps : ParamSpace3D.t) (d : dict) (expr : Expr) : Callable :=
  fun args =>
    if (length args =? 3)%nat
    then eval (zip [ParamSpace3D.x ps; ParamSpace3D.y ps; ParamSpace3D.z ps] args)
              (subs_dict d expr)
    else Raise TypeError.

(** [param not in [param_x, param_y]] *)
Definition nonaxis (param_x param_y : Symbol) (param : Symbol) : bool :=
  negb (symbol_in param [param_x; param_y]).

(** A dictionary without its entries for the two axis symbols. *)
Definition without_axes (param_x param_y : Symbol) (d : dict) : dict :=
  List.filter (fun kv => nonaxis param_x param_y (fst kv)) d.

(** The values of [d] at the keys [ks]. *)
Definition values_at (d : dict) (ks : list Symbol) : list pynum :=
  flat_map (fun k => match dict_get d k with Some v => [v] | None => [] end) ks.

(** ** The compiled function, point by point *)

(** The dtype of a buffer: [true] for complex. *)
Definition is_complex_buf (b : buffer) : bool :=
  match b with ComplexBuf _ => true | _ => false end.

(** The arguments of a call on three Python floats. *)
Definition scalar_env (ps : ParamSpace3D.t) (x y z : Q) : list (Symbol * ndarray) :=
  zip [ParamSpace3D.x ps; ParamSpace3D.y ps; ParamSpace3D.z ps]
      [scalar (PyFloat x); scalar (PyFloat y); scalar (PyFloat z)].

(** The value of the generated body at one point [(x, y, z)]. *)
Definition pointwise (ps : ParamSpace3D.t) (e : Expr) (x y z : Q) : C :=
  match eval (scalar_env ps x y z) e with
  | Ok u => hd (0, 0) (complex_view (buf u))
  | Raise _ => (0, 0)
  end.

(** Element [n] of a buffer of shape [s] under broadcasting: a scalar has
    its single element at every position. *)
Definition bget {A} (s : list nat) (l : list A) (n : nat) : option A :=
  l !! (match s with [] => 0%nat | _ => n end).

(** A buffer of shape [sh], or a scalar. *)
Definition sized {A} (sh : list nat) (s : list nat) (l : list A) : Prop :=
  (s = sh /\ length l = size_of sh) \/ (s = [] /\ length l = 1%nat).

(** Element [n] of an array, read as a complex number. *)
Definition elt (V : ndarray) (n : nat) : option C :=
  bget (shape V) (complex_view (buf V)) n.

(** A numeric array of shape [sh] with a buffer of the right length, or a
    Python number. *)
Definition sized_array (sh : list nat) (V : ndarray) : Prop :=
  is_object_buf (buf V) = false /\ sized sh (shape V) (complex_view (buf V)).

(** One element of the result of a binary operation, given its dtype. *)
Definition pt_op (fop : Q -> Q -> Q) (cop : C -> C -> C) (cplx : bool) (a b : C) : C :=
  if cplx then cop a b else Cof (fop (fst a) (fst b)).

(** ** More concrete inputs *)

(** The imaginary unit. *)
Definition ImaginaryUnit : Expr := Const (PyComplex (0, 1)).

(** [(x + I*y) - (1 + I)] *)
Definition shifted_identity : Expr :=
  Add (Add (Sym "x") (Mul ImaginaryUnit (Sym "y"))) (Const (PyComplex (-1, -1))).

(** [x + w], with [w] neither an axis nor fixed. *)
Definition x_plus_w : Expr := Add (Sym "x") (Sym "w").

(** [x + y] *)
Definition x_plus_y : Expr := Add (Sym "x") (Sym "y").


(** A 2 x 2 x 2 lattice whose fixed parameters live at heap address 1. *)
Definition unit_box : ParamSpace3D.t :=
  ParamSpace3D.mk "x" (0, 1) "y" (0, 2) "z" (-1, 1) 2 2 2 (PyRef 1).

(** A heap with an empty dictionary, and one fixing the axis symbol [x]. *)
Definition heap_empty_dict : gmap positive dict := {[ 1%positive := [] ]}.
Definition heap_x_fixed : gmap positive dict := {[ 1%positive := [("x"%string, PyFloat 3)] ]}.

(** The function generated for [shifted_identity] over the axes [x], [y]. *)
Definition shifted_identity_numeric : Callable :=
  fun args =>
    if (length args =? 2)%nat
    then eval (zip ["x"%string; "y"%string] args) shifted_identity
    else Raise TypeError.

(** ** Definitions for the further properties *)

(** The fixed parameters as arguments: each value a Python scalar. *)
Definition dict_env (d : dict) : list (Symbol * ndarray) :=
  map (fun kv => (fst kv, scalar (snd kv))) d.

(** The value of a generated body of two arguments at one point [(x, y)]. *)
Definition pointwise2 (px py : Symbol) (e : Expr) (x y : Q) : C :=
  match eval [(px, scalar (PyFloat x)); (py, scalar (PyFloat y))] e with
  | Ok u => hd (0, 0) (complex_view (buf u))
  | Raise _ => (0, 0)
  end.

(** A box with a negative resolution along y. *)
Definition box_negative : ParamSpace3D.t :=
  ParamSpace3D.mk "x" (0, 1) "y" (0, 2) "z" (-1, 1) 2 (-1) 2 PyNone.

(** [x + a], with [a] a fixed parameter. *)
Definition x_plus_a : Expr := Add (Sym "x") (Sym "a").

(** A dictionary fixing [a] and, redundantly, the axis symbol [x]. *)
Definition dict_a_x : dict := [("a"%string, PyFloat 2); ("x"%string, PyFloat 3)].

Definition heap_a_x : gmap positive dict := {[ 1%positive := dict_a_x ]}.

(** The same entries, inserted in the other order. *)
Definition dict_x_a : dict := [("x"%string, PyFloat 3); ("a"%string, PyFloat 2)].

Definition heap_x_a : gmap positive dict := {[ 1%positive := dict_x_a ]}.

(** The function generated for [x_plus_a] over [x], [y] and the parameter [a]. *)
Definition x_plus_a_numeric : Callable :=
  fun args =>
    if (length args =? 3)%nat
    then eval (zip ["x"%string; "y"%string; "a"%string] args) x_plus_a
    else Raise TypeError.

(** ** The caller scripts: transfer matrices of the CPA-laser

    [scripts/1-CPA-laser.py], [scripts/2-CPA-laser-simp.py] and
    [scripts/CPA/1-CPA-laser.py] build their expressions with SymPy's
    arithmetic on symbols, the imaginary unit [I] and 2x2 matrices.  The
    expressions are modelled by their values in a structure of scalars with
    the operations SymPy applies; [cos(kd)] and [sin(kd)] are the only places
    where [kd] occurs and enter as two scalars.  [simplify] returns an
    expression with the same value and is the identity here. *)

Module CPA.

Class Scalars : Type := {
  K : Type;
  k0 : K;
  k1 : K;
  kadd : K -> K -> K;
  kmul : K -> K -> K;
  ksub : K -> K -> K;
  kopp : K -> K;
  kdiv : K -> K -> K;
  kinv : K -> K;
  I : K
}.

(** The laws of the arithmetic: the scalars form a field. *)
Definition is_field (F : Scalars) : Prop :=
  field_theory k0 k1 kadd kmul ksub kopp kdiv kinv (@eq K).

Declare Scope K_scope.
Delimit Scope K_scope with K.
Infix "+" := kadd : K_scope.
Infix "*" := kmul : K_scope.
Infix "-" := ksub : K_scope.
Infix "/" := kdiv : K_scope.
Notation "- x" := (kopp x) : K_scope.
Notation "0" := k0 : K_scope.
Notation "1" := k1 : K_scope.
Notation "2" := (kadd k1 k1) : K_scope.
Notation "4" := (kadd (kadd k1 k1) (kadd k1 k1)) : K_scope.

(** [sp.Matrix] with two rows and two columns, and its product [*]. *)
Section Matrices.
Context `{Scalars}.
Local Open Scope K_scope.

Record Matrix : Type := mat { m00 : K; m01 : K; m10 : K; m11 : K }.

Definition matmul (a b : Matrix) : Matrix :=
  mat (m00 a * m00 b + m01 a * m10 b) (m00 a * m01 b + m01 a * m11 b)
      (m10 a * m00 b + m11 a * m10 b) (m10 a * m01 b + m11 a * m11 b).

End Matrices.

(** [scripts/1-CPA-laser.py].  The symbol [Z_0] is bound to the Python name
    [Z0] there. *)
Module Laser.
Section Script.
Context `{Scalars}.
Variables (R X Z_0 switch_factor cos_kd sin_kd : K).
Local Open Scope K_scope.

Definition Z1 : K := R + I * X.
Definition Z2 : K := switch_factor * R + I * X.

Definition Y1 : K := 1 / Z1.
Definition Y2 : K := 1 / Z2.

Definition M_loss : Matrix := mat 1 0 Y1 1.
Definition M_TL : Matrix := mat cos_kd (I * Z_0 * sin_kd) (I * sin_kd / Z_0) cos_kd.
Definition M_gain : Matrix := mat 1 0 Y2 1.

Definition M_Tl : Matrix := matmul (matmul M_loss M_TL) M_gain.
Definition M_Tr : Matrix := matmul (matmul M_gain M_TL) M_loss.

Definition A_Tl : K := m00 M_Tl.
Definition B_Tl : K := m01 M_Tl.
Definition C_Tl : K := m10 M_Tl.
Definition D_Tl : K := m11 M_Tl.

Definition A_Tr : K := m00 M_Tr.
Definition B_Tr : K := m01 M_Tr.
Definition C_Tr : K := m10 M_Tr.
Definition D_Tr : K := m11 M_Tr.

Definition p_l : K := A_Tl + B_Tl / Z_0 + C_Tl * Z_0 + D_Tl.

(** The script keeps the right-hand denominator as a comment (line 69). *)
Definition p_r : K := A_Tr + B_Tr / Z_0 + C_Tr * Z_0 + D_Tr.

Definition p : K := p_l.

Definition q_l : K := A_Tl + B_Tl / Z_0 - C_Tl * Z_0 - D_Tl.
Definition q_r : K := A_Tr + B_Tr / Z_0 - C_Tr * Z_0 - D_Tr.

Definition r_l : K := q_l / p.
Definition r_r : K := q_r / p.

Definition t : K := 2 / p.

(** The two ways of computing the reverse reflection, kept as comments in
    the script (lines 108 and 109). *)
Definition fct1 : K := - A_Tl + B_Tl / Z_0 - C_Tl * Z_0 + D_Tl.
Definition fct2 : K := A_Tr + B_Tr / Z_0 - C_Tr * Z_0 - D_Tr.

Definition S : Matrix := mat t r_r r_l t.

End Script.
End Laser.

(** [scripts/2-CPA-laser-simp.py] and [scripts/CPA/1-CPA-laser.py]: the pole
    and zero functions, defined by the same two lines in both scripts.  The
    first script plots zero contours of both; the second compiles and
    extracts the pole function only.  [x ** 2] is the product [x * x]. *)
Module Simp.
Section Script.
Context `{Scalars}.
Variables (Z_r Z_i Z_0 switch_factor cos_kd sin_kd : K).
Local Open Scope K_scope.

Definition Z_1 : K := Z_r + I * Z_i.
Definition Z_2 : K := switch_factor * Z_r + I * Z_i.

Definition Y_1 : K := 1 / Z_1.
Definition Y_2 : K := 1 / Z_2.

Definition M_loss : Matrix := mat 1 0 Y_1 1.
Definition M_TL : Matrix := mat cos_kd (I * Z_0 * sin_kd) (I * sin_kd / Z_0) cos_kd.
Definition M_gain : Matrix := mat 1 0 Y_2 1.

Definition M_T : Matrix := matmul (matmul M_loss M_TL) M_gain.

Definition A : K := m00 M_T.
Definition B : K := m01 M_T.
Definition C : K := m10 M_T.
Definition D : K := m11 M_T.

Definition pole_func : K := A + B / Z_0 + C * Z_0 + D.

Definition zero_func : K :=
  (B / Z_0 - C * Z_0) * (B / Z_0 - C * Z_0) - (A - D) * (A - D) - 4.

End Script.
End Simp.

End CPA.

(** Complex numbers with rational real and imaginary parts: scalars on which
    the scripts' expressions can be evaluated. *)
Definition Gauss : Type := Qc * Qc.

Definition Gadd (a b : Gauss) : Gauss := (fst a + fst b, snd a + snd b)%Qc.
Definition Gmul (a b : Gauss) : Gauss :=
  (fst a * fst b - snd a * snd b, fst a * snd b + snd a * fst b)%Qc.
Definition Gopp (a : Gauss) : Gauss := (- fst a, - snd a)%Qc.
Definition Gsub (a b : Gauss) : Gauss := Gadd a (Gopp b).
Definition Gnorm (a : Gauss) : Qc := (fst a * fst a + snd a * snd a)%Qc.
Definition Ginv (a : Gauss) : Gauss := (fst a / Gnorm a, - snd a / Gnorm a)%Qc.
Definition Gdiv (a b : Gauss) : Gauss := Gmul a (Ginv b).

Definition Gauss_scalars : CPA.Scalars :=
  CPA.Build_Scalars Gauss (0%Qc, 0%Qc) (1%Qc, 0%Qc) Gadd Gmul Gsub Gopp Gdiv Ginv
    (0%Qc, 1%Qc).

(** A rational number as a scalar. *)
Definition Greal (q : Q) : Gauss := (Q2Qc q, 0%Qc).

(** * Properties *)

(** ** Lists: lookups in blocks of equal length *)

Section Blocks.
Context {A : Type}.
Implicit Types (l : list A) (rows : list (list A)).

Lemma lookup_map {X} (f : A -> X) l i : map f l !! i = f <$> l !! i.
Proof.
  revert i; induction l as [|a l IH]; intros [|i]; simpl; auto.
Qed.

Lemma length_flat_map_uniform {X} (g : X -> list A) (xs : list X) m :
  (forall a, length (g a) = m) -> length (flat_map g xs) = (length xs * m)%nat.
Proof.
  intros Hg; induction xs as [|a xs IH]; simpl; [reflexivity|].
  rewrite length_app, Hg, IH; reflexivity.
Qed.

Lemma lookup_flat_map_uniform {X} (g : X -> list A) (xs : list X) m i r :
  (forall a, length (g a) = m) -> (r < m)%nat ->
  flat_map g xs !! (i * m + r)%nat = xs !! i ≫= fun a => g a !! r.
Proof.
  intros Hg Hr; revert i; induction xs as [|a xs IH]; intros i; simpl.
  - reflexivity.
  - destruct i as [|i]; simpl.
    + rewrite lookup_app_l by (rewrite Hg; exact Hr). reflexivity.
    + rewrite lookup_app_r by (rewrite Hg; lia).
      rewrite Hg. replace (m + i * m + r - m)%nat with (i * m + r)%nat by lia.
      apply IH.
Qed.

Lemma length_concat_uniform rows m :
  Forall (fun row => length row = m) rows ->
  length (concat rows) = (length rows * m)%nat.
Proof.
  induction 1 as [|row rows Hrow _ IH]; simpl; [reflexivity|].
  rewrite length_app, Hrow, IH; reflexivity.
Qed.

Lemma lookup_concat_uniform rows m i r :
  Forall (fun row => length row = m) rows -> (r < m)%nat ->
  concat rows !! (i * m + r)%nat = rows !! i ≫= fun row => row !! r.
Proof.
  intros Hrows Hr; revert i.
  induction Hrows as [|row rows Hrow _ IH]; intros i; simpl.
  - reflexivity.
  - destruct i as [|i]; simpl.
    + rewrite lookup_app_l by (rewrite Hrow; exact Hr). reflexivity.
    + rewrite lookup_app_r by (rewrite Hrow; lia).
      rewrite Hrow. replace (m + i * m + r - m)%nat with (i * m + r)%nat by lia.
      apply IH.
Qed.

Lemma length_column rows m c :
  Forall (fun row => length row = m) rows -> (c < m)%nat ->
  length (column rows c) = length rows.
Proof.
  intros Hrows Hc; induction Hrows as [|row rows Hrow _ IH]; simpl; [reflexivity|].
  rewrite length_app. fold (column rows c). rewrite IH.
  destruct (lookup_lt_is_Some_2 row c) as [v ->]; [lia|]. reflexivity.
Qed.

Lemma lookup_column rows m c i :
  Forall (fun row => length row = m) rows -> (c < m)%nat ->
  column rows c !! i = rows !! i ≫= fun row => row !! c.
Proof.
  intros Hrows Hc; revert i.
  induction Hrows as [|row rows Hrow _ IH]; intros i; simpl; [reflexivity|].
  fold (column rows c).
  destruct (lookup_lt_is_Some_2 row c) as [v Hv]; [lia|]. rewrite Hv.
  destruct i as [|i]; simpl; [symmetry; exact Hv | apply IH].
Qed.

Lemma transpose_uniform rows m :
  Forall (fun row => length row = m) rows ->
  Forall (fun col => length col = length rows) (transpose m rows).
Proof.
  intros Hrows. unfold transpose. apply Forall_forall. intros col Hin.
  apply list_elem_of_In, in_map_iff in Hin. destruct Hin as (c & <- & Hc).
  apply in_seq in Hc. apply length_column with m; [exact Hrows | lia].
Qed.

Lemma length_chunk l d m i :
  length l = (d * m)%nat -> (i < d)%nat ->
  length (firstn m (skipn (i * m) l)) = m.
Proof.
  intros Hl Hi. rewrite length_take, length_drop, Hl. nia.
Qed.

Lemma lookup_chunk l m i r :
  (r < m)%nat -> firstn m (skipn (i * m) l) !! r = l !! (i * m + r)%nat.
Proof.
  intros Hr. rewrite lookup_take_lt by exact Hr. apply lookup_drop.
Qed.

Lemma chunks_uniform l d m :
  length l = (d * m)%nat -> Forall (fun row => length row = m) (chunks d m l).
Proof.
  intros Hl. unfold chunks. apply Forall_forall. intros row Hin.
  apply list_elem_of_In, in_map_iff in Hin. destruct Hin as (i & <- & Hi).
  apply in_seq in Hi. apply length_chunk with d; [exact Hl | lia].
Qed.

End Blocks.

(** ** Fortran-order flattening *)

Lemma f_index_lt sh : forall idx, in_range sh idx -> (f_index sh idx < size_of sh)%nat.
Proof.
  induction sh as [|d rest IH]; intros [|i idx]; simpl; try tauto; try lia.
  intros [Hi Hr]. specialize (IH idx Hr). nia.
Qed.

Lemma c_index_lt sh : forall idx, in_range sh idx -> (c_index sh idx < size_of sh)%nat.
Proof.
  induction sh as [|d rest IH]; intros [|i idx]; simpl; try tauto; try lia.
  intros [Hi Hr]. specialize (IH idx Hr). nia.
Qed.

Section FlattenF.
Context {A : Type}.

Lemma flatten_F_rows (sh : list nat) (d : nat) (l : list A) :
  (forall l' : list A, length l' = size_of sh -> length (flatten_F sh l') = size_of sh) ->
  length l = (d * size_of sh)%nat ->
  Forall (fun row => length row = size_of sh)
         (map (flatten_F sh) (chunks d (size_of sh) l)).
Proof.
  intros IH Hl. apply Forall_forall. intros row Hin.
  apply list_elem_of_In, in_map_iff in Hin. destruct Hin as (ch & <- & Hch).
  apply IH. pose proof (chunks_uniform l d (size_of sh) Hl) as Hu.
  rewrite Forall_forall in Hu. apply Hu, list_elem_of_In, Hch.
Qed.

Lemma length_flatten_F (sh : list nat) :
  forall l : list A, length l = size_of sh -> length (flatten_F sh l) = size_of sh.
Proof.
  induction sh as [|d rest IH]; intros l Hl; simpl in *; [exact Hl|].
  pose proof (flatten_F_rows rest d l IH Hl) as Hrows.
  rewrite (length_concat_uniform _ _ (transpose_uniform _ _ Hrows)).
  unfold transpose, chunks. rewrite !length_map, !length_seq. lia.
Qed.

(** The element at Fortran position [f_index sh idx] of the flattening is the
    element at C position [c_index sh idx] of the buffer. *)
Lemma lookup_flatten_F (sh : list nat) :
  forall (idx : list nat) (l : list A),
    length l = size_of sh -> in_range sh idx ->
    flatten_F sh l !! f_index sh idx = l !! c_index sh idx.
Proof.
  induction sh as [|d rest IH]; intros [|i idx] l Hl Hr; simpl in *; try tauto.
  destruct Hr as [Hi Hr].
  pose proof (flatten_F_rows rest d l (length_flatten_F rest) Hl) as Hrows.
  pose proof (f_index_lt rest idx Hr) as Hf.
  pose proof (c_index_lt rest idx Hr) as Hc.
  set (m := size_of rest) in *.
  set (rows := map (flatten_F rest) (chunks d m l)) in *.
  assert (Hlen : length rows = d).
  { unfold rows, chunks. rewrite !length_map, length_seq. reflexivity. }
  pose proof (transpose_uniform rows m Hrows) as Hcols. rewrite Hlen in Hcols.
  replace (i + d * f_index rest idx)%nat with (f_index rest idx * d + i)%nat by lia.
  rewrite (lookup_concat_uniform _ d _ _ Hcols Hi).
  unfold transpose. rewrite lookup_map, lookup_seq_lt by exact Hf. simpl.
  rewrite (lookup_column rows m _ _ Hrows Hf).
  unfold rows, chunks. rewrite !lookup_map, lookup_seq_lt by exact Hi. simpl.
  rewrite IH; [|apply length_chunk with d; assumption | exact Hr].
  apply lookup_chunk. exact Hc.
Qed.

End FlattenF.

(** Worked example: a 2 x 3 array [[0,1,2],[3,4,5]] flattens in Fortran order
    to [0,3,1,4,2,5]. *)
Example flatten_F_2x3 :
  flatten_F [2; 3]%nat [0; 1; 2; 3; 4; 5]%nat = [0; 3; 1; 4; 2; 5]%nat.
Proof. reflexivity. Qed.

Example flatten_F_2x2x2 :
  flatten_F [2; 2; 2]%nat [0; 1; 2; 3; 4; 5; 6; 7]%nat = [0; 4; 2; 6; 1; 5; 3; 7]%nat.
Proof. reflexivity. Qed.

(** ** Sampling: [linspace] and [meshgrid] *)


Lemma length_set_last (y : list Q) (stop : Q) :
  y <> [] -> length (set_last y stop) = length y.
Proof.
  intros Hy. unfold set_last. rewrite length_app, removelast_firstn_len, length_take.
  destruct y; [congruence|]. simpl. lia.
Qed.

Lemma linspace_length (start stop : Q) (num : Z) :
  (0 <= num)%Z ->
  exists l, linspace start stop num = Ok l /\ length l = Z.to_nat num.
Proof.
  intros Hnum. unfold linspace.
  destruct (Z.ltb_spec num 0) as [?|_]; [lia|].
  eexists; split; [reflexivity|].
  destruct (Z.ltb_spec 1 num) as [H1|H1].
  - rewrite length_set_last.
    + destruct (0 <? num - 1)%Z; rewrite !length_map, length_seq; reflexivity.
    + destruct (Z.to_nat num) as [|n] eqn:En; [lia|].
      destruct (0 <? num - 1)%Z; simpl; discriminate.
  - destruct (0 <? num - 1)%Z; rewrite !length_map, length_seq; reflexivity.
Qed.


Lemma length_mesh_fill pick (x y z : list Q) :
  length (mesh_fill pick x y z) = size_of [length x; length y; length z].
Proof.
  unfold mesh_fill. simpl.
  rewrite (length_flat_map_uniform _ _ (length y * length z)%nat).
  - lia.
  - intros a. rewrite (length_flat_map_uniform _ _ (length z)); [reflexivity|].
    intros b. apply length_map.
Qed.

(** [X[i,j,k] = pick x[i] y[j] z[k]] at the C-order position of [(i,j,k)]. *)
Lemma lookup_mesh_fill pick (x y z : list Q) (i j k : nat) (xi yj zk : Q) :
  x !! i = Some xi -> y !! j = Some yj -> z !! k = Some zk ->
  mesh_fill pick x y z !! c_index [length x; length y; length z] [i; j; k]
  = Some (pick xi yj zk).
Proof.
  intros Hx Hy Hz. unfold mesh_fill. simpl.
  pose proof (lookup_lt_Some _ _ _ Hy) as Hj.
  pose proof (lookup_lt_Some _ _ _ Hz) as Hk.
  replace (i * (length y * (length z * 1)) + (j * (length z * 1) + (k * 1 + 0)))%nat
    with (i * (length y * length z) + (j * length z + k))%nat by lia.
  rewrite (lookup_flat_map_uniform _ _ (length y * length z)%nat).
  - rewrite Hx. simpl.
    rewrite (lookup_flat_map_uniform _ _ (length z)).
    + rewrite Hy. simpl. rewrite lookup_map, Hz. reflexivity.
    + intros b. apply length_map.
    + exact Hk.
  - intros a. rewrite (length_flat_map_uniform _ _ (length z)); [reflexivity|].
    intros b. apply length_map.
  - nia.
Qed.

Lemma lookup_map3 {X} (f : Q -> Q -> Q -> X) xs ys zs n a b c :
  xs !! n = Some a -> ys !! n = Some b -> zs !! n = Some c ->
  map3 f xs ys zs !! n = Some (f a b c).
Proof.
  intros Ha Hb Hc. unfold map3. rewrite !lookup_zip_with, Ha, Hb, Hc. reflexivity.
Qed.




(** ** Real and imaginary parts *)

Lemma map_fst_Cof (l : list Q) : map fst (map Cof l) = l.
Proof. induction l as [|q l IH]; simpl; [|rewrite IH]; reflexivity. Qed.

Lemma map_snd_Cof (l : list Q) : map snd (map Cof l) = map (fun _ => 0) l.
Proof. induction l as [|q l IH]; simpl; [|rewrite IH]; reflexivity. Qed.

Lemma np_real_view sh b :
  is_object_buf b = false ->
  np_real (mk_ndarray sh b) = mk_ndarray sh (FloatBuf (map fst (complex_view b))).
Proof.
  destruct b as [l|l|l]; intros Hb; [| |discriminate Hb];
    unfold np_real; simpl; [rewrite map_fst_Cof|]; reflexivity.
Qed.

Lemma np_imag_view sh b :
  is_object_buf b = false ->
  np_imag (mk_ndarray sh b) = mk_ndarray sh (FloatBuf (map snd (complex_view b))).
Proof.
  destruct b as [l|l|l]; intros Hb; [| |discriminate Hb];
    unfold np_imag; simpl; [rewrite map_snd_Cof|]; reflexivity.
Qed.

(** A buffer with as many numeric elements as the shape has positions is
    not an object buffer, unless the shape has no position at all. *)
Lemma numeric_of_view (b : buffer) (n : nat) :
  length (complex_view b) = n -> n <> 0%nat -> is_object_buf b = false.
Proof.
  destruct b as [l|l|l]; simpl; intros Hl Hn; [reflexivity | reflexivity | congruence].
Qed.

(** ** The structured grid *)

Lemma structured_index_point_id g (i j k : nat) :
  (i < Z.to_nat (dimensions g).1.1)%nat -> (j < Z.to_nat (dimensions g).1.2)%nat ->
  structured_index g (point_id g i j k) = (i, j, k).
Proof.
  unfold structured_index, point_id. destruct (dimensions g) as [[nx ny] nz]. simpl.
  intros Hi Hj. set (a := Z.to_nat nx) in *. set (b := Z.to_nat ny) in *.
  assert (Ha : a <> 0%nat) by lia. assert (Hb : b <> 0%nat) by lia.
  assert (E1 : ((i + a * (j + b * k)) mod a = i)%nat).
  { rewrite (Nat.mul_comm a), Nat.Div0.mod_add. apply Nat.mod_small, Hi. }
  assert (E2 : ((i + a * (j + b * k)) / a = j + b * k)%nat).
  { rewrite (Nat.mul_comm a), Nat.div_add by exact Ha.
    rewrite Nat.div_small by exact Hi. reflexivity. }
  assert (E3 : ((j + b * k) mod b = j)%nat).
  { rewrite (Nat.mul_comm b), Nat.Div0.mod_add. apply Nat.mod_small, Hj. }
  assert (E4 : ((i + a * (j + b * k)) / (a * b) = k)%nat).
  { rewrite <- Nat.Div0.div_div, E2.
    rewrite (Nat.mul_comm b), Nat.div_add by exact Hb.
    rewrite Nat.div_small by exact Hj. reflexivity. }
  rewrite E1, E2, E3, E4. reflexivity.
Qed.

(** ** The sampled grid *)

Lemma setitem_points (g : ImageData) (name : string) (a : ndarray) (len : nat) :
  shape a = [len] -> Z.of_nat len = n_points g ->
  ImageData_setitem g name a
  = Ok (mk_ImageData (dimensions g) (origin g) (spacing g)
          (<[name := a]> (point_data g)) (cell_data g)).
Proof.
  intros Hs Hn. unfold ImageData_setitem. rewrite Hs, Hn, Z.eqb_refl. reflexivity.
Qed.

Lemma truediv_ok (a : Q) (b : Z) : b <> 0%Z -> truediv a b = Ok (a / inject_Z b).
Proof.
  intros Hb. unfold truediv. destruct (Z.eqb_spec b 0); [contradiction | reflexivity].
Qed.

Lemma length_map3 {X} (f : Q -> Q -> Q -> X) xs ys zs n :
  length xs = n -> length ys = n -> length zs = n -> length (map3 f xs ys zs) = n.
Proof.
  intros Hx Hy Hz. unfold map3. rewrite !length_zip_with. lia.
Qed.

Lemma set_spacing_ok (g : ImageData) (sx sy sz : Q) :
  0 <= sx -> 0 <= sy -> 0 <= sz ->
  set_spacing g (sx, sy, sz)
  = Ok (mk_ImageData (dimensions g) (origin g) (sx, sy, sz) (point_data g) (cell_data g)).
Proof.
  intros Hx Hy Hz. unfold set_spacing.
  apply Qle_bool_iff in Hx, Hy, Hz. rewrite Hx, Hy, Hz. reflexivity.
Qed.

Lemma set_spacing_negative (g : ImageData) (sx sy sz : Q) :
  sx < 0 \/ sy < 0 \/ sz < 0 -> set_spacing g (sx, sy, sz) = Raise ValueError.
Proof.
  intros H. unfold set_spacing.
  destruct (Qle_bool 0 sx) eqn:Ex; [|reflexivity].
  destruct (Qle_bool 0 sy) eqn:Ey; [|reflexivity].
  destruct (Qle_bool 0 sz) eqn:Ez; [|reflexivity].
  apply Qle_bool_iff in Ex, Ey, Ez. exfalso. lra.
Qed.

(** The spacing along an axis with at least two samples has the sign of the
    length of the range. *)
Lemma spacing_nonneg (a b : Q) (n : Z) :
  (2 <= n)%Z -> a <= b -> 0 <= (b - a) / inject_Z (n - 1).
Proof.
  intros Hn Hab.
  assert (Hd : 0 < inject_Z (n - 1)).
  { replace 0 with (inject_Z 0) by reflexivity. rewrite <- Zlt_Qlt. lia. }
  apply Qle_shift_div_l; [exact Hd|]. rewrite Qmult_0_l. lra.
Qed.

Lemma spacing_negative (a b : Q) (n : Z) :
  (2 <= n)%Z -> b < a -> (b - a) / inject_Z (n - 1) < 0.
Proof.
  intros Hn Hab.
  assert (Hd : 0 < inject_Z (n - 1)).
  { replace 0 with (inject_Z 0) by reflexivity. rewrite <- Zlt_Qlt. lia. }
  apply Qlt_shift_div_r; [exact Hd|]. rewrite Qmult_0_l. lra.
Qed.

Lemma sample_grid_compiled (F : Callable) (f : Q -> Q -> Q -> C) (ps : ParamSpace3D.t) :
  valid_resolutions ps -> ascending ps -> compiled3 F f ->
  exists xs ys zs b,
    linspace (fst (ParamSpace3D.x_range ps)) (snd (ParamSpace3D.x_range ps))
             (ParamSpace3D.x_resolution ps) = Ok xs
    /\ linspace (fst (ParamSpace3D.y_range ps)) (snd (ParamSpace3D.y_range ps))
                (ParamSpace3D.y_resolution ps) = Ok ys
    /\ linspace (fst (ParamSpace3D.z_range ps)) (snd (ParamSpace3D.z_range ps))
                (ParamSpace3D.z_resolution ps) = Ok zs
    /\ length xs = Z.to_nat (ParamSpace3D.x_resolution ps)
    /\ length ys = Z.to_nat (ParamSpace3D.y_resolution ps)
    /\ length zs = Z.to_nat (ParamSpace3D.z_resolution ps)
    /\ complex_view b = map3 f (mesh_fill (fun xi _ _ => xi) xs ys zs)
                               (mesh_fill (fun _ yj _ => yj) xs ys zs)
                               (mesh_fill (fun _ _ zk => zk) xs ys zs)
    /\ sample_grid F ps = Ok (grid_of ps b).
Proof.
  intros (Hx & Hy & Hz) (Ax & Ay & Az) HF.
  destruct (linspace_length (fst (ParamSpace3D.x_range ps)) (snd (ParamSpace3D.x_range ps))
              (ParamSpace3D.x_resolution ps)) as (xs & Exs & Lxs); [lia|].
  destruct (linspace_length (fst (ParamSpace3D.y_range ps)) (snd (ParamSpace3D.y_range ps))
              (ParamSpace3D.y_resolution ps)) as (ys & Eys & Lys); [lia|].
  destruct (linspace_length (fst (ParamSpace3D.z_range ps)) (snd (ParamSpace3D.z_range ps))
              (ParamSpace3D.z_resolution ps)) as (zs & Ezs & Lzs); [lia|].
  destruct (HF [length xs; length ys; length zs]
              (mesh_fill (fun xi _ _ => xi) xs ys zs)
              (mesh_fill (fun _ yj _ => yj) xs ys zs)
              (mesh_fill (fun _ _ zk => zk) xs ys zs)
              (length_mesh_fill _ _ _ _) (length_mesh_fill _ _ _ _)
              (length_mesh_fill _ _ _ _)) as (b & EF & Eb).
  exists xs, ys, zs, b. repeat (split; [assumption|]).
  assert (En : Z.of_nat (size_of [length xs; length ys; length zs])
               = (ParamSpace3D.x_resolution ps * ParamSpace3D.y_resolution ps
                  * ParamSpace3D.z_resolution ps)%Z).
  { simpl. rewrite Lxs, Lys, Lzs. lia. }
  assert (Hb : is_object_buf b = false).
  { apply (numeric_of_view b (size_of [length xs; length ys; length zs])).
    - rewrite Eb. apply length_map3; apply length_mesh_fill.
    - simpl. rewrite Lxs, Lys, Lzs. nia. }
  unfold sample_grid. rewrite Exs, Eys, Ezs. simpl.
  rewrite EF. simpl. rewrite !truediv_ok by lia. simpl.
  rewrite set_spacing_ok by (apply spacing_nonneg; assumption). simpl.
  rewrite np_real_view, np_imag_view by exact Hb.
  unfold call_flatten, flatten_order_F. cbn [buf shape]. simpl.
  erewrite setitem_points; [| reflexivity | exact En]. simpl.
  erewrite setitem_points; [| reflexivity | exact En]. simpl.
  unfold grid_of. rewrite Lxs, Lys, Lzs. reflexivity.
Qed.

(** The sample stored for lattice index [(i, j, k)]. *)
Lemma grid_of_lookup (ps : ParamSpace3D.t) (f : Q -> Q -> Q -> C) (b : buffer)
    (xs ys zs : list Q) (i j k : nat) (xi yj zk : Q) :
  length xs = Z.to_nat (ParamSpace3D.x_resolution ps) ->
  length ys = Z.to_nat (ParamSpace3D.y_resolution ps) ->
  length zs = Z.to_nat (ParamSpace3D.z_resolution ps) ->
  complex_view b = map3 f (mesh_fill (fun xi _ _ => xi) xs ys zs)
                          (mesh_fill (fun _ yj _ => yj) xs ys zs)
                          (mesh_fill (fun _ _ zk => zk) xs ys zs) ->
  xs !! i = Some xi -> ys !! j = Some yj -> zs !! k = Some zk ->
  point_scalar (grid_of ps b) "real" (point_id (grid_of ps b) i j k)
    = Some (fst (f xi yj zk))
  /\ point_scalar (grid_of ps b) "imag" (point_id (grid_of ps b) i j k)
    = Some (snd (f xi yj zk)).
Proof.
  intros Lxs Lys Lzs Eb Hx Hy Hz.
  pose proof (lookup_lt_Some _ _ _ Hx) as Hi.
  pose proof (lookup_lt_Some _ _ _ Hy) as Hj.
  pose proof (lookup_lt_Some _ _ _ Hz) as Hk.
  assert (Hpart : forall part : C -> Q,
    flatten_F [length xs; length ys; length zs] (map part (complex_view b))
      !! (i + length xs * (j + length ys * k))%nat = Some (part (f xi yj zk))).
  { intros part.
    replace (i + length xs * (j + length ys * k))%nat
      with (f_index [length xs; length ys; length zs] [i; j; k]) by (simpl; lia).
    rewrite lookup_flatten_F.
    - rewrite lookup_map, Eb.
      rewrite (lookup_map3 f _ _ _ _ xi yj zk); [reflexivity | | |].
      + apply (lookup_mesh_fill (fun a _ _ => a) xs ys zs i j k xi yj zk); assumption.
      + apply (lookup_mesh_fill (fun _ a _ => a) xs ys zs i j k xi yj zk); assumption.
      + apply (lookup_mesh_fill (fun _ _ a => a) xs ys zs i j k xi yj zk); assumption.
    - rewrite length_map, Eb. apply length_map3; apply length_mesh_fill.
    - simpl. tauto. }
  unfold point_scalar, point_id, grid_of. cbn [point_data dimensions].
  rewrite <- Lxs, <- Lys, <- Lzs.
  rewrite lookup_insert_eq. rewrite lookup_insert_ne by discriminate.
  rewrite lookup_insert_eq. cbn [buf]. split; apply Hpart.
Qed.

Lemma ascending_dec (ps : ParamSpace3D.t) :
  ascending ps
  \/ (snd (ParamSpace3D.x_range ps) < fst (ParamSpace3D.x_range ps)
      \/ snd (ParamSpace3D.y_range ps) < fst (ParamSpace3D.y_range ps)
      \/ snd (ParamSpace3D.z_range ps) < fst (ParamSpace3D.z_range ps)).
Proof.
  unfold ascending.
  destruct (Qlt_le_dec (snd (ParamSpace3D.x_range ps)) (fst (ParamSpace3D.x_range ps)));
    [tauto|].
  destruct (Qlt_le_dec (snd (ParamSpace3D.y_range ps)) (fst (ParamSpace3D.y_range ps)));
    [tauto|].
  destruct (Qlt_le_dec (snd (ParamSpace3D.z_range ps)) (fst (ParamSpace3D.z_range ps)));
    tauto.
Qed.

(** With a range given as (maximum, minimum), the function is sampled and
    the spacing setter then refuses the negative spacing: no field is
    attached. *)
Lemma sample_grid_descending (F : Callable) (f : Q -> Q -> Q -> C) (ps : ParamSpace3D.t) :
  valid_resolutions ps -> compiled3 F f -> ~ ascending ps ->
  sample_grid F ps = Raise ValueError.
Proof.
  intros (Hx & Hy & Hz) HF Hdesc.
  destruct (ascending_dec ps) as [Ha|Hd]; [contradiction|].
  destruct (linspace_length (fst (ParamSpace3D.x_range ps)) (snd (ParamSpace3D.x_range ps))
              (ParamSpace3D.x_resolution ps)) as (xs & Exs & Lxs); [lia|].
  destruct (linspace_length (fst (ParamSpace3D.y_range ps)) (snd (ParamSpace3D.y_range ps))
              (ParamSpace3D.y_resolution ps)) as (ys & Eys & Lys); [lia|].
  destruct (linspace_length (fst (ParamSpace3D.z_range ps)) (snd (ParamSpace3D.z_range ps))
              (ParamSpace3D.z_resolution ps)) as (zs & Ezs & Lzs); [lia|].
  destruct (HF [length xs; length ys; length zs]
              (mesh_fill (fun xi _ _ => xi) xs ys zs)
              (mesh_fill (fun _ yj _ => yj) xs ys zs)
              (mesh_fill (fun _ _ zk => zk) xs ys zs)
              (length_mesh_fill _ _ _ _) (length_mesh_fill _ _ _ _)
              (length_mesh_fill _ _ _ _)) as (b & EF & Eb).
  unfold sample_grid. rewrite Exs, Eys, Ezs. simpl.
  rewrite EF. simpl. rewrite !truediv_ok by lia. simpl.
  rewrite set_spacing_negative; [reflexivity|].
  destruct Hd as [Hd|[Hd|Hd]];
    [left | right; left | right; right]; apply spacing_negative; assumption.
Qed.

(** C1. For a parameter space with every resolution at least 2 and a compiled
    three-axis function [f], let [xs], [ys], [zs] be the evenly spaced
    coordinates of the three axes ([np.linspace]).  Whenever the volumetric
    extractor attaches its fields, the grid has the three resolutions as its
    dimensions and, at the point with structured index [(i, j, k)] (x index
    fastest), holds the real part of [f (xs[i], ys[j], zs[k])] in ["real"]
    and its imaginary part in ["imag"]; the three resolutions are
    independent.  The fields are attached when every range is given as
    (minimum, maximum); otherwise the spacing setter raises [ValueError]
    and no field is attached. *)
Theorem field_order_matches_grid (F : Callable) (f : Q -> Q -> Q -> C)
    (ps : ParamSpace3D.t) :
  valid_resolutions ps -> compiled3 F f ->
  exists xs ys zs,
    linspace (fst (ParamSpace3D.x_range ps)) (snd (ParamSpace3D.x_range ps))
             (ParamSpace3D.x_resolution ps) = Ok xs
    /\ linspace (fst (ParamSpace3D.y_range ps)) (snd (ParamSpace3D.y_range ps))
                (ParamSpace3D.y_resolution ps) = Ok ys
    /\ linspace (fst (ParamSpace3D.z_range ps)) (snd (ParamSpace3D.z_range ps))
                (ParamSpace3D.z_resolution ps) = Ok zs
    /\ length xs = Z.to_nat (ParamSpace3D.x_resolution ps)
    /\ length ys = Z.to_nat (ParamSpace3D.y_resolution ps)
    /\ length zs = Z.to_nat (ParamSpace3D.z_resolution ps)
    /\ (ascending ps -> exists grid, sample_grid F ps = Ok grid)
    /\ (~ ascending ps -> sample_grid F ps = Raise ValueError)
    /\ forall grid, sample_grid F ps = Ok grid ->
         dimensions grid = (ParamSpace3D.x_resolution ps, ParamSpace3D.y_resolution ps,
                            ParamSpace3D.z_resolution ps)
         /\ forall i j k xi yj zk,
              xs !! i = Some xi -> ys !! j = Some yj -> zs !! k = Some zk ->
              point_scalar grid "real" (point_id grid i j k) = Some (fst (f xi yj zk))
              /\ point_scalar grid "imag" (point_id grid i j k) = Some (snd (f xi yj zk))
              /\ structured_index grid (point_id grid i j k) = (i, j, k).
Proof.
  intros Hres HF.
  destruct (ascending_dec ps) as [Ha|Hd].
  - destruct (sample_grid_compiled F f ps Hres Ha HF)
      as (xs & ys & zs & b & Exs & Eys & Ezs & Lxs & Lys & Lzs & Eb & Eg).
    exists xs, ys, zs. repeat (split; [assumption|]).
    split; [intros _; exists (grid_of ps b); exact Eg|].
    split; [intros Hn; contradiction|].
    intros grid Hgrid. rewrite Eg in Hgrid. injection Hgrid as <-.
    split; [reflexivity|].
    intros i j k xi yj zk Hx Hy Hz.
    destruct (grid_of_lookup ps f b xs ys zs i j k xi yj zk) as [Hre Him]; try assumption.
    repeat (split; [assumption|]).
    apply structured_index_point_id; cbn [grid_of dimensions fst snd].
    + rewrite <- Lxs. eapply lookup_lt_Some, Hx.
    + rewrite <- Lys. eapply lookup_lt_Some, Hy.
  - assert (Hn : ~ ascending ps).
    { unfold ascending. intros (Ax & Ay & Az). lra. }
    pose proof (sample_grid_descending F f ps Hres HF Hn) as Eg.
    destruct Hres as (Rx & Ry & Rz).
    destruct (linspace_length (fst (ParamSpace3D.x_range ps)) (snd (ParamSpace3D.x_range ps))
                (ParamSpace3D.x_resolution ps)) as (xs & Exs & Lxs); [lia|].
    destruct (linspace_length (fst (ParamSpace3D.y_range ps)) (snd (ParamSpace3D.y_range ps))
                (ParamSpace3D.y_resolution ps)) as (ys & Eys & Lys); [lia|].
    destruct (linspace_length (fst (ParamSpace3D.z_range ps)) (snd (ParamSpace3D.z_range ps))
                (ParamSpace3D.z_resolution ps)) as (zs & Ezs & Lzs); [lia|].
    exists xs, ys, zs. repeat (split; [assumption|]).
    split; [intros Ha; contradiction|]. split; [intros _; exact Eg|].
    intros grid Hgrid. rewrite Eg in Hgrid. discriminate Hgrid.
Qed.

(** ** The volumetric extractor *)

Section Volumetric.
Context `{B : Backend}.

(** A failure of the sampling stage is the failure of the extractor, and
    leaves the world as it was. *)
Lemma vis_complex_equation_sampling_error (F : Callable) (ps : ParamSpace3D.t)
    (plot : bool) (w : World) (e : exception) :
  sample_grid F ps = Raise e -> vis_complex_equation F ps plot w = (Raise e, w).
Proof.
  intros Hg. unfold vis_complex_equation, mbind, M_bind, bind, lift.
  rewrite Hg. reflexivity.
Qed.

(** Without plotting the extractor is a function of its arguments alone:
    the sampling stage followed by the three library calls. *)
Lemma vis_complex_equation_pure (F : Callable) (ps : ParamSpace3D.t) (w : World) :
  vis_complex_equation F ps false w
  = (grid ← sample_grid F ps; intersect_isosurfaces grid, w).
Proof.
  unfold vis_complex_equation, intersect_isosurfaces,
    mbind, M_bind, bind, lift, result_bind, rbind.
  destruct (sample_grid F ps) as [grid|e]; [|reflexivity].
  destruct (contour grid [0] "real") as [rc|e]; [|reflexivity].
  destruct (contour grid [0] "imag") as [ic|e]; [|reflexivity].
  destruct (intersection rc ic false false) as [[[c a] b]|e]; reflexivity.
Qed.



End Volumetric.

(** ** Where the samples of a field come from *)

Lemma In_flatten_F {A} (sh : list nat) :
  forall (l : list A) (v : A), In v (flatten_F sh l) -> In v l.
Proof.
  induction sh as [|d rest IH]; intros l v Hv; simpl in Hv; [exact Hv|].
  apply in_concat in Hv. destruct Hv as (col & Hcol & Hv).
  unfold transpose in Hcol. apply in_map_iff in Hcol. destruct Hcol as (c & <- & _).
  unfold column in Hv. apply in_flat_map in Hv. destruct Hv as (row & Hrow & Hv).
  apply in_map_iff in Hrow. destruct Hrow as (ch & <- & Hch).
  unfold chunks in Hch. apply in_map_iff in Hch. destruct Hch as (i & <- & _).
  destruct (_ !! c) as [u|] eqn:Hu; [|contradiction].
  destruct Hv as [<-|[]].
  apply list_elem_of_lookup_2, list_elem_of_In, IH in Hu.
  apply list_elem_of_In, list_elem_of_lookup_1 in Hu. destruct Hu as (r & Hr).
  apply lookup_take_Some in Hr. destruct Hr as [Hr _]. rewrite lookup_drop in Hr.
  apply list_elem_of_In. eapply list_elem_of_lookup_2, Hr.
Qed.




Section VolumetricClaims.
Context `{B : Backend}.





(** C8. With plotting disabled, two calls of the extractor on the same
    function and parameter space return the same outcome whatever the state
    of the world at each call, and neither call changes the world. *)
Theorem extractor_is_deterministic (F : Callable) (ps : ParamSpace3D.t) (w1 w2 : World) :
  fst (vis_complex_equation F ps false w1) = fst (vis_complex_equation F ps false w2)
  /\ snd (vis_complex_equation F ps false w1) = w1
  /\ snd (vis_complex_equation F ps false w2) = w2.
Proof.
  rewrite !vis_complex_equation_pure. simpl. auto.
Qed.

End VolumetricClaims.

(** ** A single sample along an axis *)

Section SingleSample.
Context `{B : Backend}.

(** With every resolution at least 1 and one of them equal to 1, the grid
    stage samples the function first and then stops at the division. *)
Lemma sample_grid_resolution_one (F : Callable) (ps : ParamSpace3D.t) :
  (1 <= ParamSpace3D.x_resolution ps)%Z ->
  (1 <= ParamSpace3D.y_resolution ps)%Z ->
  (1 <= ParamSpace3D.z_resolution ps)%Z ->
  (ParamSpace3D.x_resolution ps = 1 \/ ParamSpace3D.y_resolution ps = 1
   \/ ParamSpace3D.z_resolution ps = 1)%Z ->
  exists xs ys zs,
    linspace (fst (ParamSpace3D.x_range ps)) (snd (ParamSpace3D.x_range ps))
             (ParamSpace3D.x_resolution ps) = Ok xs
    /\ linspace (fst (ParamSpace3D.y_range ps)) (snd (ParamSpace3D.y_range ps))
                (ParamSpace3D.y_resolution ps) = Ok ys
    /\ linspace (fst (ParamSpace3D.z_range ps)) (snd (ParamSpace3D.z_range ps))
                (ParamSpace3D.z_resolution ps) = Ok zs
    /\ sample_grid F ps
       = match F [(meshgrid_ij xs ys zs).1.1; (meshgrid_ij xs ys zs).1.2;
                  (meshgrid_ij xs ys zs).2] with
         | Ok _ => Raise ZeroDivisionError
         | Raise e => Raise e
         end.
Proof.
  intros Hx Hy Hz Hone.
  destruct (linspace_length (fst (ParamSpace3D.x_range ps)) (snd (ParamSpace3D.x_range ps))
              (ParamSpace3D.x_resolution ps)) as (xs & Exs & _); [lia|].
  destruct (linspace_length (fst (ParamSpace3D.y_range ps)) (snd (ParamSpace3D.y_range ps))
              (ParamSpace3D.y_resolution ps)) as (ys & Eys & _); [lia|].
  destruct (linspace_length (fst (ParamSpace3D.z_range ps)) (snd (ParamSpace3D.z_range ps))
              (ParamSpace3D.z_resolution ps)) as (zs & Ezs & _); [lia|].
  exists xs, ys, zs. repeat (split; [assumption|]).
  unfold sample_grid. rewrite Exs, Eys, Ezs. simpl.
  destruct (F _) as [values|e]; [|reflexivity]. simpl.
  unfold truediv.
  destruct (Z.eqb_spec (ParamSpace3D.x_resolution ps - 1) 0); [reflexivity|]. simpl.
  destruct (Z.eqb_spec (ParamSpace3D.y_resolution ps - 1) 0); [reflexivity|]. simpl.
  destruct (Z.eqb_spec (ParamSpace3D.z_resolution ps - 1) 0); [reflexivity|]. lia.
Qed.

(** C3, as the code has it.  A parameter space with a resolution equal to 1
    (and none below 1) is constructed without complaint; the extractor then
    samples the function on the mesh and, if that succeeds, fails with
    [ZeroDivisionError] at the division by [resolution - 1]; an exception of
    the function itself comes first. *)
Theorem resolution_one_division_unguarded (F : Callable) (ps : ParamSpace3D.t)
    (plot : bool) (w : World) :
  (1 <= ParamSpace3D.x_resolution ps)%Z ->
  (1 <= ParamSpace3D.y_resolution ps)%Z ->
  (1 <= ParamSpace3D.z_resolution ps)%Z ->
  (ParamSpace3D.x_resolution ps = 1 \/ ParamSpace3D.y_resolution ps = 1
   \/ ParamSpace3D.z_resolution ps = 1)%Z ->
  ParamSpace3D.init (ParamSpace3D.x ps) (ParamSpace3D.x_range ps)
    (ParamSpace3D.y ps) (ParamSpace3D.y_range ps)
    (ParamSpace3D.z ps) (ParamSpace3D.z_range ps)
    (Some (ParamSpace3D.x_resolution ps)) (Some (ParamSpace3D.y_resolution ps))
    (Some (ParamSpace3D.z_resolution ps)) (Some (ParamSpace3D.fixed_param ps)) = Ok ps
  /\ exists xs ys zs,
       linspace (fst (ParamSpace3D.x_range ps)) (snd (ParamSpace3D.x_range ps))
                (ParamSpace3D.x_resolution ps) = Ok xs
       /\ linspace (fst (ParamSpace3D.y_range ps)) (snd (ParamSpace3D.y_range ps))
                   (ParamSpace3D.y_resolution ps) = Ok ys
       /\ linspace (fst (ParamSpace3D.z_range ps)) (snd (ParamSpace3D.z_range ps))
                   (ParamSpace3D.z_resolution ps) = Ok zs
       /\ vis_complex_equation F ps plot w
          = (match F [(meshgrid_ij xs ys zs).1.1; (meshgrid_ij xs ys zs).1.2;
                      (meshgrid_ij xs ys zs).2] with
             | Ok _ => Raise ZeroDivisionError
             | Raise e => Raise e
             end, w).
Proof.
  intros Hx Hy Hz Hone. split.
  - destruct ps; reflexivity.
  - destruct (sample_grid_resolution_one F ps Hx Hy Hz Hone)
      as (xs & ys & zs & Exs & Eys & Ezs & Eg).
    exists xs, ys, zs. repeat (split; [assumption|]).
    destruct (F _) as [values|e];
      apply vis_complex_equation_sampling_error; exact Eg.
Qed.

End SingleSample.

(** C3 fails as stated: with one sample along x the space is constructed,
    the extractor fails with [ZeroDivisionError], not [InvalidDomain], and
    the function has been called by then (its own exception wins). *)
Lemma resolution_one_is_not_InvalidDomain :
  ParamSpace3D.init "x" (0, 1) "y" (0, 2) "z" (-1, 1)
    (Some 1%Z) (Some 2%Z) (Some 2%Z) None = Ok box_1_2_2
  /\ fst (@vis_complex_equation reference_backend (vectorize3 plane_pair)
            box_1_2_2 false (initial_world ∅)) = Raise ZeroDivisionError
  /\ fst (@vis_complex_equation reference_backend (vectorize3 plane_pair)
            box_1_2_2 false (initial_world ∅)) <> Raise InvalidDomain
  /\ fst (@vis_complex_equation reference_backend (fun _ => Raise NameError)
            box_1_2_2 false (initial_world ∅)) = Raise NameError.
Proof.
  split; [reflexivity|].
  assert (E : fst (@vis_complex_equation reference_backend (vectorize3 plane_pair)
                     box_1_2_2 false (initial_world ∅)) = Raise ZeroDivisionError)
    by (vm_compute; reflexivity).
  split; [exact E|]. split; [rewrite E; discriminate | vm_compute; reflexivity].
Qed.

(** The amended C3 at the same input. *)
Lemma resolution_one_division_unguarded_witness :
  (1 <= ParamSpace3D.x_resolution box_1_2_2)%Z
  /\ (1 <= ParamSpace3D.y_resolution box_1_2_2)%Z
  /\ (1 <= ParamSpace3D.z_resolution box_1_2_2)%Z
  /\ (ParamSpace3D.x_resolution box_1_2_2 = 1
      \/ ParamSpace3D.y_resolution box_1_2_2 = 1
      \/ ParamSpace3D.z_resolution box_1_2_2 = 1)%Z
  /\ fst (@vis_complex_equation reference_backend (vectorize3 plane_pair)
            box_1_2_2 false (initial_world ∅)) = Raise ZeroDivisionError.
Proof.
  assert (Hx : (1 <= ParamSpace3D.x_resolution box_1_2_2)%Z) by (simpl; lia).
  assert (Hy : (1 <= ParamSpace3D.y_resolution box_1_2_2)%Z) by (simpl; lia).
  assert (Hz : (1 <= ParamSpace3D.z_resolution box_1_2_2)%Z) by (simpl; lia).
  assert (Hone : (ParamSpace3D.x_resolution box_1_2_2 = 1
                  \/ ParamSpace3D.y_resolution box_1_2_2 = 1
                  \/ ParamSpace3D.z_resolution box_1_2_2 = 1)%Z)
    by (left; reflexivity).
  repeat (split; [assumption|]).
  destruct (@resolution_one_division_unguarded reference_backend
              (vectorize3 plane_pair) box_1_2_2 false (initial_world ∅)
              Hx Hy Hz Hone)
    as (_ & xs & ys & zs & Exs & Eys & Ezs & Ev).
  rewrite Ev. vm_compute in Exs, Eys, Ezs.
  injection Exs as <-. injection Eys as <-. injection Ezs as <-. reflexivity.
Defined.

(** ** Evaluating generated functions *)

Lemma length_object_view (b : buffer) : length (object_view b) = buf_length b.
Proof. destruct b; simpl; [apply length_map | apply length_map | reflexivity]. Qed.

Lemma broadcast2_fits {A} (op : A -> A -> A) sh sa la sb lb :
  (sa = sh \/ (sa = [] /\ length la = 1%nat)) ->
  (sb = sh \/ (sb = [] /\ length lb = 1%nat)) ->
  exists s l, broadcast2 op sa la sb lb = Ok (s, l)
              /\ (s = sh \/ (s = [] /\ length l = 1%nat)).
Proof.
  intros Ha Hb. unfold broadcast2.
  destruct (decide (sa = sb)) as [Heq|Hne].
  - eexists _, _. split; [reflexivity|].
    destruct Ha as [Ha|[Ha La]]; [left; exact Ha|].
    destruct Hb as [Hb|[Hb Lb]]; [left; congruence|].
    right. split; [exact Ha|].
    rewrite length_zip_with, La, Lb. reflexivity.
  - destruct (decide (sa = [])) as [Ha0|Ha0].
    + destruct Ha as [Ha|[_ La]].
      * destruct Hb as [Hb|[Hb _]]; congruence.
      * destruct la as [|v [|? ?]]; simpl in La; try lia.
        eexists _, _. split; [reflexivity|].
        destruct Hb as [Hb|[Hb _]]; [left; exact Hb | congruence].
    + destruct Ha as [Ha|[Ha _]]; [|congruence].
      destruct Hb as [Hb|[Hb Lb]]; [congruence|].
      destruct (decide (sb = [])) as [_|?]; [|congruence].
      destruct lb as [|v [|? ?]]; simpl in Lb; try lia.
      eexists _, _. split; [reflexivity|]. left; exact Ha.
Qed.

Lemma np_binop_fits fop cop oop sh a b :
  fits sh a -> fits sh b ->
  exists v, np_binop fop cop oop a b = Ok v /\ fits sh v.
Proof.
  intros Ha Hb. unfold np_binop, fits in *.
  destruct (is_object_buf (buf a) || is_object_buf (buf b)) eqn:Eo.
  - destruct (broadcast2_fits oop sh (shape a) (object_view (buf a))
                (shape b) (object_view (buf b)))
      as (s & l & -> & Hs); [rewrite length_object_view; exact Ha
                            | rewrite length_object_view; exact Hb |].
    simpl. eexists; split; [reflexivity|exact Hs].
  - apply orb_false_iff in Eo. destruct Eo as [Oa Ob].
    destruct (buf a) as [la|la|la] eqn:Ea, (buf b) as [lb|lb|lb] eqn:Eb;
      try discriminate; simpl in *.
    + destruct (broadcast2_fits fop sh (shape a) la (shape b) lb Ha Hb)
        as (s & l & -> & Hs). simpl. eexists; split; [reflexivity|exact Hs].
    + destruct (broadcast2_fits cop sh (shape a) (map Cof la) (shape b) lb)
        as (s & l & -> & Hs); [rewrite length_map; exact Ha | exact Hb |].
      simpl. eexists; split; [reflexivity|exact Hs].
    + destruct (broadcast2_fits cop sh (shape a) la (shape b) (map Cof lb))
        as (s & l & -> & Hs); [exact Ha | rewrite length_map; exact Hb |].
      simpl. eexists; split; [reflexivity|exact Hs].
    + destruct (broadcast2_fits cop sh (shape a) la (shape b) lb Ha Hb)
        as (s & l & -> & Hs). simpl. eexists; split; [reflexivity|exact Hs].
Qed.

Lemma fits_scalar sh v : fits sh (scalar v).
Proof. right. destruct v; split; reflexivity. Qed.

(** On arguments fitting one shape, the generated body raises nothing: it
    returns an array of that shape or a scalar value.  A name that is not
    an argument contributes the symbol itself. *)
Lemma eval_fits sh (env : list (Symbol * ndarray)) (e : Expr) :
  (forall s v, dict_get env s = Some v -> fits sh v) ->
  exists v, eval env e = Ok v /\ fits sh v.
Proof.
  intros Henv. induction e as [s|v|a IHa b IHb|a IHa b IHb]; simpl.
  - destruct (dict_get env s) as [v|] eqn:Hs.
    + exists v. split; [reflexivity | eapply Henv, Hs].
    + eexists. split; [reflexivity|]. right. split; reflexivity.
  - exists (scalar v). split; [reflexivity | apply fits_scalar].
  - destruct IHa as (va & -> & Hva). destruct IHb as (vb & -> & Hvb). simpl.
    apply np_binop_fits; assumption.
  - destruct IHa as (va & -> & Hva). destruct IHb as (vb & -> & Hvb). simpl.
    apply np_binop_fits; assumption.
Qed.

(** Substitution removes the symbols the dictionary mentions. *)
Lemma free_symbols_subs_gone (d : dict) (e : Expr) (s : Symbol) :
  is_Some (dict_get d s) -> ~ In s (free_symbols (subs_dict d e)).
Proof.
  intros [v Hd]. induction e as [t|u|a IHa b IHb|a IHa b IHb]; simpl.
  - destruct (dict_get d t) as [u|] eqn:Ht; simpl; [tauto|].
    intros [->|[]]. congruence.
  - tauto.
  - rewrite in_app_iff. tauto.
  - rewrite in_app_iff. tauto.
Qed.

(** The value of the generated body depends only on the arguments bound to
    its free symbols. *)
Lemma eval_ext (env env' : list (Symbol * ndarray)) (e : Expr) :
  (forall s, In s (free_symbols e) -> dict_get env s = dict_get env' s) ->
  eval env e = eval env' e.
Proof.
  induction e as [s|v|a IHa b IHb|a IHa b IHb]; simpl; intros H.
  - rewrite (H s) by auto. reflexivity.
  - reflexivity.
  - rewrite IHa, IHb; [reflexivity | |]; intros s Hs; apply H, in_app_iff; tauto.
  - rewrite IHa, IHb; [reflexivity | |]; intros s Hs; apply H, in_app_iff; tauto.
Qed.

(** ** Generated functions act elementwise *)

Lemma bget_nil {A} (l : list A) (n : nat) : bget [] l n = l !! 0%nat.
Proof. reflexivity. Qed.

Lemma bget_cons {A} (d : nat) (s : list nat) (l : list A) (n : nat) :
  bget (d :: s) l n = l !! n.
Proof. reflexivity. Qed.

Lemma broadcast2_elt {A} (op : A -> A -> A) (sh : list nat)
    (sa : list nat) (la : list A) (sb : list nat) (lb : list A) :
  sized sh sa la -> sized sh sb lb ->
  exists s l,
    broadcast2 op sa la sb lb = Ok (s, l)
    /\ sized sh s l
    /\ (sa = sh \/ sb = sh -> s = sh)
    /\ forall n a b, bget sa la n = Some a -> bget sb lb n = Some b ->
         bget s l n = Some (op a b).
Proof.
  intros Ha Hb. unfold broadcast2.
  destruct (decide (sa = sb)) as [Heq|Hne].
  - exists sa, (zip_with op la lb). split; [reflexivity|]. split; [|split].
    + destruct Ha as [[Ha La]|[Ha La]], Hb as [[Hb Lb]|[Hb Lb]].
      * left. split; [exact Ha|]. rewrite length_zip_with. lia.
      * left. split; [exact Ha|]. rewrite length_zip_with.
        assert (size_of sh = 1%nat)
          by (replace sh with (@nil nat) by congruence; reflexivity). lia.
      * left. split; [congruence|]. rewrite length_zip_with.
        assert (size_of sh = 1%nat)
          by (replace sh with (@nil nat) by congruence; reflexivity). lia.
      * right. split; [exact Ha|]. rewrite length_zip_with. lia.
    + intros [H|H]; congruence.
    + intros n a b Ga Gb. subst sb. unfold bget in *.
      rewrite lookup_zip_with, Ga. simpl. rewrite Gb. reflexivity.
  - destruct (decide (sa = [])) as [Ha0|Ha0].
    + assert (La : length la = 1%nat).
      { destruct Ha as [[Ha La]|[_ La]]; [|exact La].
        subst sh. rewrite Ha0 in La. exact La. }
      assert (Hb' : sb = sh /\ length lb = size_of sh).
      { destruct Hb as [Hb|[Hb _]]; [exact Hb | congruence]. }
      destruct Hb' as [Hb' Lb].
      destruct la as [|v [|? ?]]; simpl in La; try lia.
      exists sb, (map (op v) lb). split; [reflexivity|]. split; [|split].
      * left. split; [exact Hb'|]. rewrite length_map. exact Lb.
      * intros _. exact Hb'.
      * intros n a b Ga Gb. subst sa. rewrite bget_nil in Ga. simpl in Ga.
        injection Ga as <-. unfold bget in *. rewrite lookup_map, Gb. reflexivity.
    + destruct (decide (sb = [])) as [Hb0|Hb0].
      * assert (Lb : length lb = 1%nat).
        { destruct Hb as [[Hb Lb]|[_ Lb]]; [|exact Lb].
          subst sh. rewrite Hb0 in Lb. exact Lb. }
        assert (Ha' : sa = sh /\ length la = size_of sh).
        { destruct Ha as [Ha|[Ha _]]; [exact Ha | congruence]. }
        destruct Ha' as [Ha' La].
        destruct lb as [|v [|? ?]]; simpl in Lb; try lia.
        exists sa, (map (fun u => op u v) la). split; [reflexivity|]. split; [|split].
        -- left. split; [exact Ha'|]. rewrite length_map. exact La.
        -- intros _. exact Ha'.
        -- intros n a b Ga Gb. subst sb. rewrite bget_nil in Gb. simpl in Gb.
           injection Gb as <-. unfold bget in *. rewrite lookup_map, Ga. reflexivity.
      * exfalso. destruct Ha as [[Ha _]|[Ha _]], Hb as [[Hb _]|[Hb _]]; congruence.
Qed.

Lemma bget_map {A X} (f : A -> X) (s : list nat) (l : list A) (n : nat) :
  bget s (map f l) n = f <$> bget s l n.
Proof. unfold bget. apply lookup_map. Qed.

Lemma sized_map {A X} (f : A -> X) (sh s : list nat) (l : list A) :
  sized sh s (map f l) <-> sized sh s l.
Proof. unfold sized. rewrite length_map. reflexivity. Qed.

(** A binary operation on two arrays fitting [sh] succeeds, and its element
    [n] is the operation applied to the elements [n] of the operands. *)
Lemma np_binop_elt (fop : Q -> Q -> Q) (cop : C -> C -> C)
    (oop : Expr -> Expr -> Expr) (sh : list nat) (A B : ndarray) :
  sized_array sh A -> sized_array sh B ->
  exists V,
    np_binop fop cop oop A B = Ok V
    /\ sized_array sh V
    /\ is_complex_buf (buf V) = is_complex_buf (buf A) || is_complex_buf (buf B)
    /\ (shape A = sh \/ shape B = sh -> shape V = sh)
    /\ forall n a b, elt A n = Some a -> elt B n = Some b ->
         elt V n = Some (pt_op fop cop
                           (is_complex_buf (buf A) || is_complex_buf (buf B)) a b).
Proof.
  unfold sized_array, elt, np_binop. intros [OA HA] [OB HB]. rewrite OA, OB. simpl.
  destruct (buf A) as [la|la|la], (buf B) as [lb|lb|lb]; try discriminate; simpl in *.
  - apply sized_map in HA, HB.
    destruct (broadcast2_elt fop sh (shape A) la (shape B) lb HA HB)
      as (s & l & -> & Hs & Hsh & Hget).
    simpl. eexists. split; [reflexivity|]. simpl.
    split; [split; [reflexivity | apply sized_map; exact Hs]|].
    split; [reflexivity|]. split; [exact Hsh|].
    intros n a b Ga Gb. rewrite bget_map in Ga, Gb |- *.
    destruct (bget (shape A) la n) as [qa|] eqn:Ea; [|discriminate].
    destruct (bget (shape B) lb n) as [qb|] eqn:Eb; [|discriminate].
    simpl in Ga, Gb. injection Ga as <-. injection Gb as <-.
    rewrite (Hget n qa qb Ea Eb). reflexivity.
  - destruct (broadcast2_elt cop sh (shape A) (map Cof la) (shape B) lb HA HB)
      as (s & l & -> & Hs & Hsh & Hget).
    simpl. eexists. split; [reflexivity|]. simpl.
    split; [split; [reflexivity | exact Hs]|].
    split; [reflexivity|]. split; [exact Hsh|]. exact Hget.
  - destruct (broadcast2_elt cop sh (shape A) la (shape B) (map Cof lb) HA HB)
      as (s & l & -> & Hs & Hsh & Hget).
    simpl. eexists. split; [reflexivity|]. simpl.
    split; [split; [reflexivity | exact Hs]|].
    split; [reflexivity|]. split; [exact Hsh|]. exact Hget.
  - destruct (broadcast2_elt cop sh (shape A) la (shape B) lb HA HB)
      as (s & l & -> & Hs & Hsh & Hget).
    simpl. eexists. split; [reflexivity|]. simpl.
    split; [split; [reflexivity | exact Hs]|].
    split; [reflexivity|]. split; [exact Hsh|]. exact Hget.
Qed.

Section Elementwise.
Variables (ps : ParamSpace3D.t) (sh : list nat) (xs ys zs : list Q).
Hypothesis Lxs : length xs = size_of sh.
Hypothesis Lys : length ys = size_of sh.
Hypothesis Lzs : length zs = size_of sh.

Let axes : list Symbol :=
  [ParamSpace3D.x ps; ParamSpace3D.y ps; ParamSpace3D.z ps].
Let env : list (Symbol * ndarray) :=
  zip axes [mk_ndarray sh (FloatBuf xs); mk_ndarray sh (FloatBuf ys);
            mk_ndarray sh (FloatBuf zs)].

Lemma elt_axis_array (l : list Q) (n : nat) (v : Q) :
  length l = size_of sh -> l !! n = Some v ->
  elt (mk_ndarray sh (FloatBuf l)) n = Some (Cof v).
Proof.
  intros Hl Hv. unfold elt. simpl. rewrite bget_map.
  destruct sh as [|d rest]; simpl.
  - apply lookup_lt_Some in Hv as Hn. rewrite Hl in Hn. simpl in Hn.
    replace n with 0%nat in Hv by lia. rewrite bget_nil, Hv. reflexivity.
  - rewrite bget_cons, Hv. reflexivity.
Qed.

Lemma sized_axis_array (l : list Q) :
  length l = size_of sh -> sized_array sh (mk_ndarray sh (FloatBuf l)).
Proof. intros Hl. split; [reflexivity|]. left. simpl. rewrite length_map. auto. Qed.

Lemma sized_scalar (sh' : list nat) (v : pynum) : sized_array sh' (scalar v).
Proof. destruct v; (split; [reflexivity|]); right; split; reflexivity. Qed.

(** Evaluating the body on three arrays of shape [sh] gives, at every
    position, what evaluating it on the three numbers at that position
    gives, with the same dtype. *)
Lemma eval_elementwise (e : Expr) :
  (forall s, In s (free_symbols e) -> In s axes) ->
  exists V,
    eval env e = Ok V
    /\ sized_array sh V
    /\ (free_symbols e <> [] -> shape V = sh)
    /\ forall n x y z,
         xs !! n = Some x -> ys !! n = Some y -> zs !! n = Some z ->
         exists u c,
           eval (scalar_env ps x y z) e = Ok u
           /\ sized_array [] u
           /\ is_complex_buf (buf u) = is_complex_buf (buf V)
           /\ elt u 0 = Some c
           /\ elt V n = Some c.
Proof.
  induction e as [s|v|a IHa b IHb|a IHa b IHb]; intros Hfree.
  - specialize (Hfree s (or_introl eq_refl)).
    unfold env, axes, scalar_env in *. simpl in Hfree |- *.
    destruct (decide (ParamSpace3D.x ps = s)) as [_|Nx];
      [|destruct (decide (ParamSpace3D.y ps = s)) as [_|Ny];
        [|destruct (decide (ParamSpace3D.z ps = s)) as [_|Nz]; [|exfalso; tauto]]].
    + eexists. split; [reflexivity|]. split; [apply sized_axis_array, Lxs|].
      split; [reflexivity|]. intros n x y z Hx Hy Hz.
      exists (scalar (PyFloat x)), (Cof x). split; [reflexivity|].
      split; [apply sized_scalar|]. split; [reflexivity|]. split; [reflexivity|].
      apply elt_axis_array; assumption.
    + eexists. split; [reflexivity|]. split; [apply sized_axis_array, Lys|].
      split; [reflexivity|]. intros n x y z Hx Hy Hz.
      exists (scalar (PyFloat y)), (Cof y). split; [reflexivity|].
      split; [apply sized_scalar|]. split; [reflexivity|]. split; [reflexivity|].
      apply elt_axis_array; assumption.
    + eexists. split; [reflexivity|]. split; [apply sized_axis_array, Lzs|].
      split; [reflexivity|]. intros n x y z Hx Hy Hz.
      exists (scalar (PyFloat z)), (Cof z). split; [reflexivity|].
      split; [apply sized_scalar|]. split; [reflexivity|]. split; [reflexivity|].
      apply elt_axis_array; assumption.
  - exists (scalar v). split; [reflexivity|]. split; [apply sized_scalar|].
    split; [intros H; contradiction H; reflexivity|]. intros n x y z _ _ _.
    exists (scalar v), (hd (0, 0) (complex_view (buf (scalar v)))).
    split; [reflexivity|]. split; [apply sized_scalar|]. split; [reflexivity|].
    destruct v; split; reflexivity.
  - destruct IHa as (Va & Ea & Sa & Fa & Pa);
      [intros s Hs; apply Hfree; simpl; apply in_app_iff; auto|].
    destruct IHb as (Vb & Eb & Sb & Fb & Pb);
      [intros s Hs; apply Hfree; simpl; apply in_app_iff; auto|].
    destruct (np_binop_elt Qplus Cadd Add sh Va Vb Sa Sb) as (V & EV & SV & DV & FV & PV).
    exists V. simpl. rewrite Ea, Eb. simpl. split; [exact EV|]. split; [exact SV|].
    split.
    { intros Hne. apply FV.
      destruct (free_symbols a) as [|s la] eqn:Efa; [right | left; apply Fa; discriminate].
      apply Fb. intros Hb0. apply Hne. rewrite Hb0. reflexivity. }
    intros n x y z Hx Hy Hz.
    destruct (Pa n x y z Hx Hy Hz) as (ua & ca & Eua & Sua & Dua & Gua & GVa).
    destruct (Pb n x y z Hx Hy Hz) as (ub & cb & Eub & Sub & Dub & Gub & GVb).
    destruct (np_binop_elt Qplus Cadd Add [] ua ub Sua Sub) as (u & Eu & Su & Du & _ & Pu).
    exists u, (pt_op Qplus Cadd (is_complex_buf (buf Va) || is_complex_buf (buf Vb)) ca cb).
    rewrite Eua, Eub. simpl. split; [exact Eu|]. split; [exact Su|].
    split; [rewrite Du, DV, Dua, Dub; reflexivity|]. split.
    + rewrite (Pu 0%nat ca cb Gua Gub), Dua, Dub. reflexivity.
    + apply PV; assumption.
  - destruct IHa as (Va & Ea & Sa & Fa & Pa);
      [intros s Hs; apply Hfree; simpl; apply in_app_iff; auto|].
    destruct IHb as (Vb & Eb & Sb & Fb & Pb);
      [intros s Hs; apply Hfree; simpl; apply in_app_iff; auto|].
    destruct (np_binop_elt Qmult Cmul Mul sh Va Vb Sa Sb) as (V & EV & SV & DV & FV & PV).
    exists V. simpl. rewrite Ea, Eb. simpl. split; [exact EV|]. split; [exact SV|].
    split.
    { intros Hne. apply FV.
      destruct (free_symbols a) as [|s la] eqn:Efa; [right | left; apply Fa; discriminate].
      apply Fb. intros Hb0. apply Hne. rewrite Hb0. reflexivity. }
    intros n x y z Hx Hy Hz.
    destruct (Pa n x y z Hx Hy Hz) as (ua & ca & Eua & Sua & Dua & Gua & GVa).
    destruct (Pb n x y z Hx Hy Hz) as (ub & cb & Eub & Sub & Dub & Gub & GVb).
    destruct (np_binop_elt Qmult Cmul Mul [] ua ub Sua Sub) as (u & Eu & Su & Du & _ & Pu).
    exists u, (pt_op Qmult Cmul (is_complex_buf (buf Va) || is_complex_buf (buf Vb)) ca cb).
    rewrite Eua, Eub. simpl. split; [exact Eu|]. split; [exact Su|].
    split; [rewrite Du, DV, Dua, Dub; reflexivity|]. split.
    + rewrite (Pu 0%nat ca cb Gua Gub), Dua, Dub. reflexivity.
    + apply PV; assumption.
Qed.

End Elementwise.

(** What the compiler returns is a compiled three-axis function in the sense
    of [compiled3], provided the substituted expression mentions an axis and
    nothing but axes: it computes [pointwise] at every mesh position. *)
Lemma compiled_body_compiled3 (ps : ParamSpace3D.t) (d : dict) (expr : Expr) :
  (forall s, In s (free_symbols (subs_dict d expr)) ->
             In s [ParamSpace3D.x ps; ParamSpace3D.y ps; ParamSpace3D.z ps]) ->
  free_symbols (subs_dict d expr) <> [] ->
  compiled3 (compiled_body ps d expr) (pointwise ps (subs_dict d expr)).
Proof.
  intros Hfree Hne sh xs ys zs Lxs Lys Lzs.
  destruct (eval_elementwise ps sh xs ys zs Lxs Lys Lzs (subs_dict d expr) Hfree)
    as (V & EV & SV & FV & PV).
  specialize (FV Hne). destruct V as [s b]. simpl in FV. subst s.
  exists b. split; [exact EV|].
  assert (Lb : length (complex_view b) = size_of sh).
  { destruct SV as [_ [[_ L]|[E L]]]; simpl in *; [exact L|]. rewrite E. exact L. }
  apply list_eq. intros n.
  destruct (xs !! n) as [x|] eqn:Hx.
  - pose proof (lookup_lt_Some _ _ _ Hx) as Hn.
    destruct (lookup_lt_is_Some_2 ys n) as [y Hy]; [lia|].
    destruct (lookup_lt_is_Some_2 zs n) as [z Hz]; [lia|].
    destruct (PV n x y z Hx Hy Hz) as (u & c & Eu & _ & _ & Gu & GV).
    rewrite (lookup_map3 _ _ _ _ _ x y z Hx Hy Hz).
    unfold pointwise. rewrite Eu.
    unfold elt in Gu, GV. simpl in GV.
    replace (hd (0, 0) (complex_view (buf u))) with c.
    + rewrite <- GV. unfold bget. destruct sh as [|d' rest]; [|reflexivity].
      simpl in Lxs. replace n with 0%nat by lia. reflexivity.
    + unfold bget in Gu. destruct (shape u), (complex_view (buf u));
        simpl in *; congruence.
  - apply lookup_ge_None in Hx.
    rewrite (lookup_ge_None_2 (complex_view b)) by lia.
    symmetry. apply lookup_ge_None_2.
    rewrite (length_map3 _ _ _ _ (size_of sh)); [lia | assumption..].
Qed.

(** ** The compiler *)

Section Compiler.
Context `{B : Backend}.

Lemma get_numpy_func_run (expr : Expr) (ps : ParamSpace3D.t) (w : World) :
  get_numpy_func expr ps w
  = (match ParamSpace3D.fixed_param ps with
     | PyNone => Raise ValueError
     | PyRef l =>
         match heap w !! l with
         | Some d => lambdify [ParamSpace3D.x ps; ParamSpace3D.y ps; ParamSpace3D.z ps]
                       (subs_dict d expr)
         | None => Raise SystemError
         end
     end, w).
Proof.
  unfold get_numpy_func, read_dict, deref, mbind, mret, M_bind, M_ret, bind, ret, lift.
  destruct (ParamSpace3D.fixed_param ps) as [|l]; simpl; [reflexivity|].
  destruct (heap w !! l) as [d|]; simpl; [|reflexivity].
  destruct (lambdify _ _); reflexivity.
Qed.

Lemma lambdify_NoDup (params : list Symbol) (e : Expr) :
  NoDup params ->
  lambdify params e
  = Ok (fun args => if (length args =? length params)%nat
                    then eval (zip params args) e else Raise TypeError).
Proof.
  intros Hnd. unfold lambdify. rewrite bool_decide_eq_true_2 by exact Hnd. reflexivity.
Qed.

Lemma get_numpy_func_dict (expr : Expr) (ps : ParamSpace3D.t) (l : positive) (d : dict)
    (w : World) :
  ParamSpace3D.fixed_param ps = PyRef l -> heap w !! l = Some d ->
  NoDup [ParamSpace3D.x ps; ParamSpace3D.y ps; ParamSpace3D.z ps] ->
  get_numpy_func expr ps w = (Ok (compiled_body ps d expr), w).
Proof.
  intros Hf Hd Hnd. rewrite get_numpy_func_run, Hf, Hd, lambdify_NoDup by exact Hnd.
  reflexivity.
Qed.

Lemma dict_get_axes (ps : ParamSpace3D.t) (X Y Z : ndarray) (s : Symbol) :
  ~ In s [ParamSpace3D.x ps; ParamSpace3D.y ps; ParamSpace3D.z ps] ->
  dict_get (zip [ParamSpace3D.x ps; ParamSpace3D.y ps; ParamSpace3D.z ps] [X; Y; Z]) s
  = None.
Proof.
  intros Hs. simpl in *.
  repeat (destruct (decide _) as [E|_]; [exfalso; apply Hs; auto|]). reflexivity.
Qed.


(** C10. A parameter space built without [fixed_param] holds [None] there,
    and compiling any expression against it raises [ValueError] in the
    substitution; built with a reference to an empty dictionary, the same
    call returns a function. *)
Theorem default_fixed_param_breaks_compilation
    (x : Symbol) (x_range : Q * Q) (y : Symbol) (y_range : Q * Q)
    (z : Symbol) (z_range : Q * Q) (rx ry rz : option Z) :
  exists ps,
    ParamSpace3D.init x x_range y y_range z z_range rx ry rz None = Ok ps
    /\ ParamSpace3D.fixed_param ps = PyNone
    /\ (forall expr w, get_numpy_func expr ps w = (Raise ValueError, w))
    /\ (forall expr, Expr_subs expr None = Raise ValueError)
    /\ (forall expr l w,
          heap w !! l = Some [] -> NoDup [x; y; z] ->
          exists ps' F,
            ParamSpace3D.init x x_range y y_range z z_range rx ry rz (Some (PyRef l))
            = Ok ps'
            /\ get_numpy_func expr ps' w = (Ok F, w)).
Proof.
  eexists. split; [reflexivity|]. split; [reflexivity|].
  split; [intros expr w; rewrite get_numpy_func_run; reflexivity|].
  split; [reflexivity|].
  intros expr l w Hl Hnd. eexists _, _. split; [reflexivity|].
  apply (get_numpy_func_dict expr _ l []); [reflexivity | exact Hl | exact Hnd].
Qed.

End Compiler.

(** ** The planar extractor *)

Lemma dict_get_keys (d : dict) (k : Symbol) :
  In k (dict_keys d) -> is_Some (dict_get d k).
Proof.
  induction d as [|[k' v] d IH]; simpl; [tauto|].
  intros [->|Hin].
  - rewrite decide_True by reflexivity. eauto.
  - destruct (decide (k' = k)); [eauto | apply IH, Hin].
Qed.

Lemma collect_params_spec (px py : Symbol) (d : dict) (ks : list Symbol) :
  forall lp fv,
    (forall k, In k ks -> nonaxis px py k = true -> is_Some (dict_get d k)) ->
    collect_params px py d ks lp fv
    = Ok (lp ++ List.filter (nonaxis px py) ks,
          fv ++ values_at d (List.filter (nonaxis px py) ks)).
Proof.
  induction ks as [|k ks IH]; intros lp fv Hks; simpl.
  - rewrite !app_nil_r. reflexivity.
  - fold (nonaxis px py k). destruct (nonaxis px py k) eqn:Hk.
    + destruct (Hks k (or_introl eq_refl) Hk) as [v Hv].
      unfold dict_contains, dict_getitem. rewrite Hv. simpl.
      rewrite IH by (intros k' Hin; apply Hks; right; exact Hin).
      rewrite Hv. simpl. rewrite <- !app_assoc. reflexivity.
    + apply IH. intros k' Hin. apply Hks. right; exact Hin.
Qed.

Lemma nonaxis_px (px py : Symbol) : nonaxis px py px = false.
Proof.
  unfold nonaxis, symbol_in. rewrite bool_decide_eq_true_2; [reflexivity|].
  apply list_elem_of_In. simpl. auto.
Qed.

Lemma nonaxis_py (px py : Symbol) : nonaxis px py py = false.
Proof.
  unfold nonaxis, symbol_in. rewrite bool_decide_eq_true_2; [reflexivity|].
  apply list_elem_of_In. simpl. auto.
Qed.

(** The loop of [plot_zero_contours] never raises: it keeps the two axes and
    appends the remaining keys of the dictionary with their values. *)
Lemma collect_params_all (px py : Symbol) (d : dict) :
  collect_params px py d ([px; py] ++ dict_keys d) [px; py] []
  = Ok ([px; py] ++ List.filter (nonaxis px py) (dict_keys d),
        values_at d (List.filter (nonaxis px py) (dict_keys d))).
Proof.
  rewrite collect_params_spec.
  - simpl. rewrite nonaxis_px, nonaxis_py. reflexivity.
  - intros k [<-|[<-|Hin]] Hk.
    + rewrite nonaxis_px in Hk. discriminate.
    + rewrite nonaxis_py in Hk. discriminate.
    + apply dict_get_keys, Hin.
Qed.

Lemma dict_keys_without_axes (px py : Symbol) (d : dict) :
  dict_keys (without_axes px py d) = List.filter (nonaxis px py) (dict_keys d).
Proof.
  induction d as [|[k v] d IH]; simpl; [reflexivity|].
  destruct (nonaxis px py k); simpl; rewrite IH; reflexivity.
Qed.

Lemma dict_get_without_axes (px py : Symbol) (d : dict) (k : Symbol) :
  nonaxis px py k = true -> dict_get (without_axes px py d) k = dict_get d k.
Proof.
  intros Hk. induction d as [|[k' v] d IH]; simpl; [reflexivity|].
  destruct (nonaxis px py k') eqn:Hk'; simpl.
  - destruct (decide (k' = k)); [reflexivity | exact IH].
  - destruct (decide (k' = k)) as [->|_]; [congruence | exact IH].
Qed.

Lemma filter_idem {A} (p : A -> bool) (l : list A) :
  List.filter p (List.filter p l) = List.filter p l.
Proof.
  induction l as [|a l IH]; simpl; [reflexivity|].
  destruct (p a) eqn:Ha; simpl; [rewrite Ha, IH|]; auto.
Qed.

Lemma values_at_without_axes (px py : Symbol) (d : dict) (ks : list Symbol) :
  values_at (without_axes px py d) (List.filter (nonaxis px py) ks)
  = values_at d (List.filter (nonaxis px py) ks).
Proof.
  induction ks as [|k ks IH]; simpl; [reflexivity|].
  destruct (nonaxis px py k) eqn:Hk; simpl; [|exact IH].
  rewrite dict_get_without_axes by exact Hk. rewrite IH. reflexivity.
Qed.

(** The entries of the dictionary for the axis symbols do not reach the
    generated function at all. *)
Lemma collect_params_without_axes (px py : Symbol) (d : dict) :
  collect_params px py (without_axes px py d)
    ([px; py] ++ dict_keys (without_axes px py d)) [px; py] []
  = collect_params px py d ([px; py] ++ dict_keys d) [px; py] [].
Proof.
  rewrite !collect_params_all, dict_keys_without_axes, filter_idem.
  rewrite values_at_without_axes. reflexivity.
Qed.

(** ** Fixed parameters passed as arguments *)

Lemma dict_get_app {V} (d1 d2 : list (Symbol * V)) (s : Symbol) :
  dict_get (d1 ++ d2) s
  = match dict_get d1 s with Some v => Some v | None => dict_get d2 s end.
Proof.
  induction d1 as [|[k v] d1 IH]; simpl; [reflexivity|].
  destruct (decide (k = s)); [reflexivity | exact IH].
Qed.

Lemma dict_get_dict_env (d : dict) (s : Symbol) :
  dict_get (dict_env d) s = scalar <$> dict_get d s.
Proof.
  induction d as [|[k v] d IH]; simpl; [reflexivity|].
  destruct (decide (k = s)); [reflexivity | exact IH].
Qed.

(** Evaluating a substituted expression is evaluating the original one with
    the substituted values bound first. *)
Lemma eval_subs_dict (env : list (Symbol * ndarray)) (d : dict) (e : Expr) :
  eval env (subs_dict d e) = eval (dict_env d ++ env) e.
Proof.
  induction e as [s|v|a IHa b IHb|a IHa b IHb]; simpl.
  - rewrite dict_get_app, dict_get_dict_env.
    destruct (dict_get d s) as [v|]; reflexivity.
  - reflexivity.
  - rewrite IHa, IHb. reflexivity.
  - rewrite IHa, IHb. reflexivity.
Qed.

Lemma values_at_lookup (d : dict) (ks : list Symbol) :
  (forall k, In k ks -> is_Some (dict_get d k)) ->
  length (values_at d ks) = length ks
  /\ forall i k, ks !! i = Some k -> values_at d ks !! i = dict_get d k.
Proof.
  induction ks as [|k0 ks IH]; intros Hks; simpl.
  - split; [reflexivity|]. intros i k H. discriminate H.
  - destruct (Hks k0 (or_introl eq_refl)) as [v Hv]. rewrite Hv. simpl.
    destruct IH as [IHl IHi]; [intros k Hk; apply Hks; right; exact Hk|].
    split; [rewrite IHl; reflexivity|].
    intros [|i] k Hk; simpl in Hk |- *.
    + injection Hk as <-. symmetry. exact Hv.
    + apply IHi, Hk.
Qed.

Lemma nonaxis_keys_in_dict (px py : Symbol) (d : dict) (k : Symbol) :
  In k (List.filter (nonaxis px py) (dict_keys d)) -> is_Some (dict_get d k).
Proof. intros Hk. apply filter_In in Hk. apply dict_get_keys, Hk. Qed.

Lemma dict_get_None (d : dict) (s : Symbol) :
  ~ In s (dict_keys d) -> dict_get d s = None.
Proof.
  induction d as [|[k v] d IH]; simpl; [reflexivity|]. intros Hs.
  destruct (decide (k = s)) as [->|_]; [tauto | apply IH; tauto].
Qed.

Lemma dict_get_zip_values (d : dict) (ks : list Symbol) (s : Symbol) :
  (forall k, In k ks -> is_Some (dict_get d k)) ->
  dict_get (zip ks (map scalar (values_at d ks))) s
  = if bool_decide (s ∈ ks) then scalar <$> dict_get d s else None.
Proof.
  induction ks as [|k0 ks IH]; intros Hks.
  - rewrite bool_decide_eq_false_2; [reflexivity|].
    rewrite list_elem_of_In. simpl. tauto.
  - cbn [values_at flat_map]. fold (values_at d ks).
    destruct (Hks k0 (or_introl eq_refl)) as [v Hv]. rewrite Hv.
    cbn [app map zip zip_with dict_get].
    destruct (decide (k0 = s)) as [->|Hne].
    + rewrite bool_decide_eq_true_2 by (apply list_elem_of_In; simpl; auto).
      rewrite Hv. reflexivity.
    + rewrite IH by (intros k Hk; apply Hks; right; exact Hk).
      destruct (bool_decide (s ∈ ks)) eqn:Hin.
      * apply bool_decide_eq_true_1, list_elem_of_In in Hin.
        rewrite bool_decide_eq_true_2 by (apply list_elem_of_In; simpl; auto).
        reflexivity.
      * apply bool_decide_eq_false_1 in Hin. rewrite list_elem_of_In in Hin.
        rewrite bool_decide_eq_false_2; [reflexivity|].
        rewrite list_elem_of_In. simpl. tauto.
Qed.

Lemma lambdify_Ok (params : list Symbol) (e : Expr) (fn : Callable) :
  lambdify params e = Ok fn ->
  fn = fun args => if (length args =? length params)%nat
                   then eval (zip params args) e else Raise TypeError.
Proof.
  unfold lambdify. destruct (bool_decide (NoDup params)); [|discriminate].
  intros [= <-]. reflexivity.
Qed.

(** The generated function of the planar extractor on the two meshes. *)
Lemma planar_function_eval (func : Expr) (px py : Symbol) (d : dict) (fn : Callable)
    (X Y : ndarray) :
  lambdify ([px; py] ++ List.filter (nonaxis px py) (dict_keys d)) func = Ok fn ->
  fn (X :: Y :: map scalar (values_at d (List.filter (nonaxis px py) (dict_keys d))))
  = eval [(px, X); (py, Y)] (subs_dict (without_axes px py d) func).
Proof.
  intros Hl. rewrite (lambdify_Ok _ _ _ Hl).
  destruct (values_at_lookup d (List.filter (nonaxis px py) (dict_keys d))
              (nonaxis_keys_in_dict px py d)) as [Hlen _].
  simpl length. rewrite length_map, Hlen, Nat.eqb_refl.
  rewrite eval_subs_dict. apply eval_ext. intros s _.
  rewrite dict_get_app, dict_get_dict_env. simpl.
  destruct (decide (px = s)) as [->|Npx].
  { rewrite dict_get_None; [reflexivity|].
    rewrite dict_keys_without_axes. intros Hin. apply filter_In in Hin.
    destruct Hin as [_ Hna]. rewrite nonaxis_px in Hna. discriminate. }
  destruct (decide (py = s)) as [->|Npy].
  { rewrite dict_get_None; [reflexivity|].
    rewrite dict_keys_without_axes. intros Hin. apply filter_In in Hin.
    destruct Hin as [_ Hna]. rewrite nonaxis_py in Hna. discriminate. }
  rewrite dict_get_zip_values by apply nonaxis_keys_in_dict.
  destruct (bool_decide (s ∈ List.filter (nonaxis px py) (dict_keys d))) eqn:Hin.
  - apply bool_decide_eq_true_1, list_elem_of_In in Hin. apply filter_In in Hin.
    rewrite dict_get_without_axes by apply Hin.
    destruct (dict_get d s); reflexivity.
  - apply bool_decide_eq_false_1 in Hin. rewrite list_elem_of_In in Hin.
    rewrite dict_get_None; [reflexivity|]. rewrite dict_keys_without_axes. exact Hin.
Qed.

Section Planar.
Context `{B : Backend}.

(** The planar extractor once the grid has been sampled to [Zv]. *)
Lemma plot_zero_contours_run (func : Expr) (px py : Symbol) (xr yr : Q * Q)
    (l : positive) (res : Z) (title : option string) (levels : list Q) (w : World)
    (d : dict) lp fv fn xs ys Zv :
  heap w !! l = Some d ->
  collect_params px py d ([px; py] ++ dict_keys d) [px; py] [] = Ok (lp, fv) ->
  lambdify lp func = Ok fn ->
  linspace (fst xr) (snd xr) res = Ok xs ->
  linspace (fst yr) (snd yr) res = Ok ys ->
  fn ((meshgrid_xy xs ys).1 :: (meshgrid_xy xs ys).2 :: map scalar fv) = Ok Zv ->
  plot_zero_contours func px py xr yr l res title levels w
  = (match Axes_contour subplots (meshgrid_xy xs ys).1 (meshgrid_xy xs ys).2
             (narrowed Zv) levels with
     | Ok fig => Ok (Axes_decorate fig px py title func)
     | Raise e => Raise e
     end,
     mk_World (heap w) (stdout w ++ narrowing_output Zv) (shown w)
              (open_figures w ++ [subplots])).
Proof.
  intros Hd Hc Hl Hx Hy Hz.
  unfold plot_zero_contours, deref, mbind, mret, M_bind, M_ret, bind, ret, lift.
  rewrite Hd, Hc, Hl, Hx, Hy. simpl in *. rewrite Hz.
  unfold narrowed, narrowing_output, print, plt_subplots.
  destruct (iscomplexobj Zv); simpl.
  - destruct (Axes_contour _ _ _ _ _); reflexivity.
  - rewrite app_nil_r. destruct (Axes_contour _ _ _ _ _); reflexivity.
Qed.

Lemma plot_zero_contours_outcome (func : Expr) (px py : Symbol) (xr yr : Q * Q)
    (l : positive) (res : Z) (title : option string) (levels : list Q) (w : World)
    (d : dict) :
  heap w !! l = Some d ->
  fst (plot_zero_contours func px py xr yr l res title levels w)
  = planar_outcome func px py xr yr d res title levels.
Proof.
  intros Hd.
  unfold plot_zero_contours, planar_outcome, deref,
    mbind, mret, M_bind, M_ret, bind, ret, lift, result_bind, rbind.
  rewrite Hd.
  destruct (collect_params _ _ _ _ _ _) as [[lp fv]|e]; [|reflexivity].
  destruct (lambdify lp func) as [fn|e]; [|reflexivity].
  destruct (linspace (fst xr) (snd xr) res) as [xs|e]; [|reflexivity].
  destruct (linspace (fst yr) (snd yr) res) as [ys|e]; [|reflexivity].
  simpl. destruct (fn _) as [Zv|e]; [|reflexivity].
  unfold narrowed, print, plt_subplots.
  destruct (iscomplexobj Zv); simpl; destruct (Axes_contour _ _ _ _ _); reflexivity.
Qed.

(** C6. Once the grid has been sampled to [Zv]: if [Zv] is complex the
    extractor prints the warning, exactly once, and contours the real part
    of [Zv]; if [Zv] is real it prints nothing and contours [Zv] itself.  In
    both cases the outcome is that of the contouring routine. *)
Theorem complex_field_warns_and_keeps_real_part (func : Expr) (px py : Symbol)
    (xr yr : Q * Q) (l : positive) (res : Z) (title : option string)
    (levels : list Q) (w : World) (d : dict) lp fv fn xs ys Zv :
  heap w !! l = Some d ->
  collect_params px py d ([px; py] ++ dict_keys d) [px; py] [] = Ok (lp, fv) ->
  lambdify lp func = Ok fn ->
  linspace (fst xr) (snd xr) res = Ok xs ->
  linspace (fst yr) (snd yr) res = Ok ys ->
  fn ((meshgrid_xy xs ys).1 :: (meshgrid_xy xs ys).2 :: map scalar fv) = Ok Zv ->
  (iscomplexobj Zv = true ->
     plot_zero_contours func px py xr yr l res title levels w
     = (match Axes_contour subplots (meshgrid_xy xs ys).1 (meshgrid_xy xs ys).2
                (np_real Zv) levels with
        | Ok fig => Ok (Axes_decorate fig px py title func)
        | Raise e => Raise e
        end,
        mk_World (heap w) (stdout w ++ [warning]) (shown w)
                 (open_figures w ++ [subplots])))
  /\ (iscomplexobj Zv = false ->
        plot_zero_contours func px py xr yr l res title levels w
        = (match Axes_contour subplots (meshgrid_xy xs ys).1 (meshgrid_xy xs ys).2
                   Zv levels with
           | Ok fig => Ok (Axes_decorate fig px py title func)
           | Raise e => Raise e
           end,
           mk_World (heap w) (stdout w) (shown w) (open_figures w ++ [subplots]))).
Proof.
  intros Hd Hc Hl Hx Hy Hz.
  rewrite (plot_zero_contours_run func px py xr yr l res title levels w
             d lp fv fn xs ys Zv Hd Hc Hl Hx Hy Hz).
  unfold narrowed, narrowing_output.
  split; intros ->; [reflexivity | rewrite app_nil_r; reflexivity].
Qed.

(** C5, as the code has it.  A symbol that is both an axis and a key of the
    fixed-parameter dictionary raises no error.  The compiler returns a
    function in which the fixed value has replaced the symbol, so that the
    symbol is no longer free in the compiled body and the result of a call
    does not depend on the argument passed for it; the planar extractor
    keeps the symbol as an axis and behaves exactly as if the dictionary had
    no entry for it. *)
Theorem conflicting_parameter_is_accepted (d : dict) (s : Symbol) :
  is_Some (dict_get d s) ->
  (forall expr ps l w,
     In s [ParamSpace3D.x ps; ParamSpace3D.y ps; ParamSpace3D.z ps] ->
     ParamSpace3D.fixed_param ps = PyRef l -> heap w !! l = Some d ->
     NoDup [ParamSpace3D.x ps; ParamSpace3D.y ps; ParamSpace3D.z ps] ->
     get_numpy_func expr ps w = (Ok (compiled_body ps d expr), w)
     /\ ~ In s (free_symbols (subs_dict d expr))
     /\ forall args args',
          length args = 3%nat -> length args' = 3%nat ->
          (forall t, t <> s ->
             dict_get (zip [ParamSpace3D.x ps; ParamSpace3D.y ps; ParamSpace3D.z ps] args) t
             = dict_get (zip [ParamSpace3D.x ps; ParamSpace3D.y ps; ParamSpace3D.z ps]
                             args') t) ->
          compiled_body ps d expr args = compiled_body ps d expr args')
  /\ (forall func px py xr yr l res title levels w w',
        In s [px; py] ->
        heap w !! l = Some d -> heap w' !! l = Some (without_axes px py d) ->
        dict_get (without_axes px py d) s = None
        /\ fst (plot_zero_contours func px py xr yr l res title levels w)
           = fst (plot_zero_contours func px py xr yr l res title levels w')).
Proof.
  intros Hs. split.
  - intros expr ps l w Hax Hf Hd Hnd. split; [|split].
    + apply (get_numpy_func_dict expr ps l d); assumption.
    + apply free_symbols_subs_gone, Hs.
    + intros args args' La La' Hagree. unfold compiled_body. rewrite La, La'. simpl.
      apply eval_ext. intros t Ht. apply Hagree. intros ->.
      exact (free_symbols_subs_gone d expr s Hs Ht).
  - intros func px py xr yr l res title levels w w' Hax Hd Hd'. split.
    + unfold without_axes. clear Hd Hd' Hs. induction d as [|[k v] d' IH]; simpl; [reflexivity|].
      destruct (nonaxis px py k) eqn:Hk; simpl; [|exact IH].
      destruct (decide (k = s)) as [->|_]; [|exact IH].
      destruct Hax as [<-|[<-|[]]].
      * rewrite nonaxis_px in Hk. discriminate.
      * rewrite nonaxis_py in Hk. discriminate.
    + rewrite (plot_zero_contours_outcome _ _ _ _ _ _ _ _ _ _ _ Hd).
      rewrite (plot_zero_contours_outcome _ _ _ _ _ _ _ _ _ _ _ Hd').
      unfold planar_outcome. rewrite collect_params_without_axes. reflexivity.
Qed.


End Planar.

(** ** The heap is only read *)

Section Heap.
Context `{B : Backend}.

Lemma keeps_heap_ret {A} (a : A) : keeps_heap (mret a).
Proof. intros w. reflexivity. Qed.

Lemma keeps_heap_lift {A} (r : result A) : keeps_heap (lift r).
Proof. intros w. reflexivity. Qed.

Lemma keeps_heap_bind {A C} (m : M A) (k : A -> M C) :
  keeps_heap m -> (forall a, keeps_heap (k a)) -> keeps_heap (m ≫= k).
Proof.
  intros Hm Hk w. unfold mbind, M_bind, bind.
  specialize (Hm w). destruct (m w) as [[a|e] w']; simpl in *.
  - rewrite Hk. exact Hm.
  - exact Hm.
Qed.

Lemma keeps_heap_deref (l : positive) : keeps_heap (deref l).
Proof. intros w. unfold deref. destruct (heap w !! l); reflexivity. Qed.

Lemma keeps_heap_read_dict (r : pyref) : keeps_heap (read_dict r).
Proof.
  destruct r as [|l]; simpl; [apply keeps_heap_ret|].
  apply keeps_heap_bind; [apply keeps_heap_deref | intros; apply keeps_heap_ret].
Qed.

Lemma keeps_heap_print (s : string) : keeps_heap (print s).
Proof. intros w. reflexivity. Qed.

Lemma keeps_heap_show (p : Plotter) : keeps_heap (Plotter_show p).
Proof. intros w. reflexivity. Qed.

Lemma keeps_heap_subplots : keeps_heap plt_subplots.
Proof. intros w. reflexivity. Qed.

Ltac keeps_heap_tac :=
  repeat first
    [ apply keeps_heap_ret | apply keeps_heap_lift | apply keeps_heap_deref
    | apply keeps_heap_read_dict | apply keeps_heap_print | apply keeps_heap_show
    | apply keeps_heap_subplots
    | apply keeps_heap_bind; [|intros ?]
    | match goal with
      | |- keeps_heap (let '(_, _) := ?p in _) => destruct p
      | |- keeps_heap (if ?b then _ else _) => destruct b
      end ].

Lemma keeps_heap_get_numpy_func (expr : Expr) (ps : ParamSpace3D.t) :
  keeps_heap (get_numpy_func expr ps).
Proof. unfold get_numpy_func. keeps_heap_tac. Qed.

Lemma keeps_heap_render (ps : ParamSpace3D.t) (curve : PolyData) :
  keeps_heap (render ps curve).
Proof. unfold render. keeps_heap_tac. Qed.

Lemma keeps_heap_vis_complex_equation (F : Callable) (ps : ParamSpace3D.t) (plot : bool) :
  keeps_heap (vis_complex_equation F ps plot).
Proof.
  unfold vis_complex_equation. keeps_heap_tac.
Qed.

Lemma keeps_heap_plot_zero_contours (func : Expr) (px py : Symbol) (xr yr : Q * Q)
    (l : positive) (res : Z) (title : option string) (levels : list Q) :
  keeps_heap (plot_zero_contours func px py xr yr l res title levels).
Proof. unfold plot_zero_contours. keeps_heap_tac. Qed.

(** C9. A parameter space cannot be reassigned: [__setattr__] raises
    [FrozenInstanceError] for every attribute.  The compiler and both
    extractors only read the heap, so the dictionary behind [fixed_param]
    and the record that refers to it are the same after any of them has
    run, whether it returned or raised, and after the compiler and the
    volumetric extractor have run one after the other. *)
Theorem parameter_space_is_never_modified (ps : ParamSpace3D.t) (name : string)
    (v : ParamSpace3D.value) (expr func : Expr) (F : Callable) (plot : bool)
    (px py : Symbol) (xr yr : Q * Q) (l : positive) (res : Z)
    (title : option string) (levels : list Q) (w : World) :
  ParamSpace3D.setattr ps name v = Raise FrozenInstanceError
  /\ heap (snd (get_numpy_func expr ps w)) = heap w
  /\ heap (snd (vis_complex_equation F ps plot w)) = heap w
  /\ heap (snd (plot_zero_contours func px py xr yr l res title levels w)) = heap w
  /\ heap (snd ((G ← get_numpy_func expr ps; vis_complex_equation G ps plot) w)) = heap w
  /\ heap (snd ((_ ← vis_complex_equation F ps plot; get_numpy_func expr ps) w)) = heap w.
Proof.
  split; [reflexivity|].
  split; [apply keeps_heap_get_numpy_func|].
  split; [apply keeps_heap_vis_complex_equation|].
  split; [apply keeps_heap_plot_zero_contours|].
  split.
  - apply (keeps_heap_bind (get_numpy_func expr ps)
             (fun G => vis_complex_equation G ps plot)).
    + apply keeps_heap_get_numpy_func.
    + intros G. apply keeps_heap_vis_complex_equation.
  - apply (keeps_heap_bind (vis_complex_equation F ps plot)
             (fun _ => get_numpy_func expr ps)).
    + apply keeps_heap_vis_complex_equation.
    + intros _. apply keeps_heap_get_numpy_func.
Qed.

End Heap.

(** ** The reference backend finds no crossing in a field of one sign *)





(** ** Concrete runs *)

Lemma valid_box_2_3_4 : valid_resolutions box_2_3_4.
Proof. unfold valid_resolutions. simpl. lia. Qed.

Lemma NoDup_xyz : NoDup ["x"%string; "y"%string; "z"%string].
Proof. apply (bool_decide_unpack _). vm_compute. exact I. Qed.

(** The compiled form of [shifted_identity] over the axes of the box. *)
Lemma shifted_identity_compiled3 :
  compiled3 (compiled_body box_2_3_4 [] shifted_identity)
            (pointwise box_2_3_4 shifted_identity).
Proof.
  apply (compiled_body_compiled3 box_2_3_4 [] shifted_identity).
  - simpl. intros s [<-|[<-|[]]]; auto.
  - discriminate.
Qed.

Lemma ascending_box_2_3_4 : ascending box_2_3_4.
Proof. unfold ascending. simpl. repeat split; discriminate. Qed.

Lemma field_order_matches_grid_witness :
  valid_resolutions box_2_3_4
  /\ compiled3 (compiled_body box_2_3_4 [] shifted_identity)
               (pointwise box_2_3_4 shifted_identity)
  /\ ascending box_2_3_4
  /\ exists grid,
       sample_grid (compiled_body box_2_3_4 [] shifted_identity) box_2_3_4 = Ok grid
       /\ point_scalar grid "real" (point_id grid 1 2 3)
          = Some (fst (pointwise box_2_3_4 shifted_identity 1 2 1))
       /\ point_scalar grid "imag" (point_id grid 1 2 3)
          = Some (snd (pointwise box_2_3_4 shifted_identity 1 2 1))
       /\ structured_index grid (point_id grid 1 2 3) = (1, 2, 3)%nat.
Proof.
  split; [exact valid_box_2_3_4|]. split; [exact shifted_identity_compiled3|].
  split; [exact ascending_box_2_3_4|].
  destruct (field_order_matches_grid (compiled_body box_2_3_4 [] shifted_identity)
              (pointwise box_2_3_4 shifted_identity) box_2_3_4
              valid_box_2_3_4 shifted_identity_compiled3)
    as (xs & ys & zs & Exs & Eys & Ezs & _ & _ & _ & Hasc & _ & H).
  destruct (Hasc ascending_box_2_3_4) as (grid & Eg).
  exists grid. split; [exact Eg|].
  vm_compute in Exs, Eys, Ezs.
  injection Exs as <-. injection Eys as <-. injection Ezs as <-.
  destruct (H grid Eg) as (_ & Hpt).
  exact (Hpt 1%nat 2%nat 3%nat 1 2 1 eq_refl eq_refl eq_refl).
Defined.

(** At the corner [(1, 2, 1)] of the box, [(x + I*y) - (1 + I)] is [I]. *)
Example shifted_identity_at_corner :
  fst (pointwise box_2_3_4 shifted_identity 1 2 1) == 0
  /\ snd (pointwise box_2_3_4 shifted_identity 1 2 1) == 1.
Proof. split; vm_compute; reflexivity. Qed.







(** The value of the compiled [x + w] on three numbers is a symbolic
    object: the sum of the number and the symbol. *)
Example unresolved_symbol_value :
  compiled_body unit_box [] x_plus_w
    [scalar (PyFloat 1); scalar (PyFloat 2); scalar (PyFloat 3)]
  = Ok (mk_ndarray [] (ObjectBuf [Add (Const (PyFloat 1)) (Sym "w")])).
Proof. vm_compute. reflexivity. Qed.


(** C5 fails as stated: with [x] both an axis and a fixed parameter, the
    compiler and the planar extractor both return normally. *)
Lemma conflicting_parameter_is_not_rejected :
  In "x"%string [ParamSpace3D.x unit_box; ParamSpace3D.y unit_box; ParamSpace3D.z unit_box]
  /\ dict_get [("x"%string, PyFloat 3)] "x" = Some (PyFloat 3)
  /\ is_ok (fst (@get_numpy_func reference_backend x_plus_y unit_box
                   (initial_world heap_x_fixed))) = true
  /\ fst (@get_numpy_func reference_backend x_plus_y unit_box
            (initial_world heap_x_fixed)) <> Raise ConflictingParameter
  /\ is_ok (fst (@plot_zero_contours reference_backend x_plus_y "x" "y" (-5, 5) (-5, 5)
                   1 3 None [0] (initial_world heap_x_fixed))) = true
  /\ fst (@plot_zero_contours reference_backend x_plus_y "x" "y" (-5, 5) (-5, 5)
            1 3 None [0] (initial_world heap_x_fixed)) <> Raise ConflictingParameter.
Proof.
  split; [simpl; auto|]. split; [reflexivity|].
  split; [vm_compute; reflexivity|]. split.
  { destruct (fst _) as [F|e] eqn:E; [discriminate|]. vm_compute in E. discriminate E. }
  split; [vm_compute; reflexivity|].
  destruct (fst _) as [F|e] eqn:E; [discriminate|]. vm_compute in E. discriminate E.
Qed.

Lemma conflicting_parameter_is_accepted_witness :
  is_Some (dict_get [("x"%string, PyFloat 3)] "x")
  /\ is_ok (fst (@get_numpy_func reference_backend x_plus_y unit_box
                   (initial_world heap_x_fixed))) = true
  /\ ~ In "x"%string (free_symbols (subs_dict [("x"%string, PyFloat 3)] x_plus_y))
  /\ fst (@plot_zero_contours reference_backend x_plus_y "x" "y" (-5, 5) (-5, 5)
            1 3 None [0] (initial_world heap_x_fixed))
     = fst (@plot_zero_contours reference_backend x_plus_y "x" "y" (-5, 5) (-5, 5)
              1 3 None [0] (initial_world heap_empty_dict)).
Proof.
  assert (Hs : is_Some (dict_get [("x"%string, PyFloat 3)] "x")) by (eexists; reflexivity).
  split; [exact Hs|].
  destruct (@conflicting_parameter_is_accepted reference_backend
              [("x"%string, PyFloat 3)] "x"%string Hs) as [HA HB].
  destruct (HA x_plus_y unit_box 1%positive (initial_world heap_x_fixed))
    as (Hg & Hfree & _); [simpl; auto | reflexivity | reflexivity | exact NoDup_xyz |].
  split; [rewrite Hg; reflexivity|]. split; [exact Hfree|].
  apply (HB x_plus_y "x"%string "y"%string (-5, 5) (-5, 5) 1%positive 3%Z None [0]
            (initial_world heap_x_fixed) (initial_world heap_empty_dict));
    [simpl; auto | reflexivity | reflexivity].
Defined.

Lemma complex_field_warns_and_keeps_real_part_witness :
  exists xs Zv,
    heap (@initial_world reference_backend heap_empty_dict) !! 1%positive = Some []
    /\ collect_params "x" "y" [] (["x"%string; "y"%string] ++ dict_keys [])
         ["x"%string; "y"%string] [] = Ok (["x"%string; "y"%string], [])
    /\ lambdify ["x"%string; "y"%string] shifted_identity = Ok shifted_identity_numeric
    /\ linspace (fst (-5, 5)) (snd (-5, 5)) 3 = Ok xs
    /\ shifted_identity_numeric
         ((meshgrid_xy xs xs).1 :: (meshgrid_xy xs xs).2 :: map scalar []) = Ok Zv
    /\ iscomplexobj Zv = true
    /\ stdout (snd (@plot_zero_contours reference_backend shifted_identity "x" "y"
                      (-5, 5) (-5, 5) 1 3 None [0] (initial_world heap_empty_dict)))
       = [warning].
Proof.
  destruct (linspace (fst (-5, 5)) (snd (-5, 5)) 3) as [xs|e] eqn:Ex;
    [|vm_compute in Ex; discriminate Ex].
  destruct (shifted_identity_numeric
              ((meshgrid_xy xs xs).1 :: (meshgrid_xy xs xs).2 :: map scalar []))
    as [Zv|e] eqn:Ez;
    [|vm_compute in Ex; injection Ex as <-; vm_compute in Ez; discriminate Ez].
  exists xs, Zv.
  assert (H1 : heap (@initial_world reference_backend heap_empty_dict) !! 1%positive
               = Some []) by reflexivity.
  assert (H2 : collect_params "x" "y" [] (["x"%string; "y"%string] ++ dict_keys [])
                 ["x"%string; "y"%string] [] = Ok (["x"%string; "y"%string], []))
    by reflexivity.
  assert (H3 : lambdify ["x"%string; "y"%string] shifted_identity
               = Ok shifted_identity_numeric) by reflexivity.
  assert (Hc : iscomplexobj Zv = true).
  { vm_compute in Ex. injection Ex as <-. vm_compute in Ez. injection Ez as <-.
    reflexivity. }
  repeat (split; [first [assumption | reflexivity]|]).
  destruct (@complex_field_warns_and_keeps_real_part reference_backend
              shifted_identity "x"%string "y"%string (-5, 5) (-5, 5) 1%positive 3%Z
              None [0] (initial_world heap_empty_dict) []
              ["x"%string; "y"%string] [] shifted_identity_numeric xs xs Zv
              H1 H2 H3 Ex Ex Ez) as [Hwarn _].
  rewrite (Hwarn Hc). reflexivity.
Defined.

Lemma default_fixed_param_breaks_compilation_witness :
  heap (@initial_world reference_backend heap_empty_dict) !! 1%positive = Some []
  /\ NoDup ["x"%string; "y"%string; "z"%string]
  /\ (exists ps,
        ParamSpace3D.init "x" (0, 1) "y" (0, 2) "z" (-1, 1) None None None None = Ok ps
        /\ ParamSpace3D.fixed_param ps = PyNone
        /\ @get_numpy_func reference_backend x_plus_y ps (initial_world ∅)
           = (Raise ValueError, initial_world ∅))
  /\ exists ps' F,
       ParamSpace3D.init "x" (0, 1) "y" (0, 2) "z" (-1, 1) None None None
         (Some (PyRef 1)) = Ok ps'
       /\ @get_numpy_func reference_backend x_plus_y ps' (initial_world heap_empty_dict)
          = (Ok F, initial_world heap_empty_dict).
Proof.
  assert (H1 : heap (@initial_world reference_backend heap_empty_dict) !! 1%positive
               = Some []) by reflexivity.
  split; [exact H1|]. split; [exact NoDup_xyz|].
  destruct (@default_fixed_param_breaks_compilation reference_backend
              "x"%string (0, 1) "y"%string (0, 2) "z"%string (-1, 1) None None None)
    as (ps & Hinit & Hnone & Hfail & _ & Hdict).
  split.
  - exists ps. split; [exact Hinit|]. split; [exact Hnone|]. apply Hfail.
  - apply (Hdict x_plus_y 1%positive (initial_world heap_empty_dict) H1 NoDup_xyz).
Defined.

(** * Further properties *)

(** ** Resolutions below zero *)

Section NegativeResolution.
Context `{B : Backend}.

(** X1. A negative resolution on any axis makes the volumetric extractor
    raise [ValueError] while it builds the coordinate vectors: whatever the
    callable is, it is not consulted, and the world is left as it was. *)
Theorem negative_resolution_is_ValueError (F : Callable) (ps : ParamSpace3D.t)
    (plot : bool) (w : World) :
  (ParamSpace3D.x_resolution ps < 0 \/ ParamSpace3D.y_resolution ps < 0
   \/ ParamSpace3D.z_resolution ps < 0)%Z ->
  vis_complex_equation F ps plot w = (Raise ValueError, w).
Proof.
  intros Hneg. apply vis_complex_equation_sampling_error.
  unfold sample_grid, linspace.
  destruct (Z.ltb_spec (ParamSpace3D.x_resolution ps) 0) as [_|Hx]; [reflexivity|].
  simpl.
  destruct (Z.ltb_spec (ParamSpace3D.y_resolution ps) 0) as [_|Hy]; [reflexivity|].
  simpl.
  destruct (Z.ltb_spec (ParamSpace3D.z_resolution ps) 0) as [_|Hz]; [reflexivity|].
  lia.
Qed.

End NegativeResolution.

Lemma negative_resolution_is_ValueError_witness :
  (ParamSpace3D.x_resolution box_negative < 0
   \/ ParamSpace3D.y_resolution box_negative < 0
   \/ ParamSpace3D.z_resolution box_negative < 0)%Z
  /\ @vis_complex_equation reference_backend (fun _ => Raise NameError) box_negative
       true (initial_world ∅) = (Raise ValueError, initial_world ∅).
Proof.
  assert (H : (ParamSpace3D.x_resolution box_negative < 0
               \/ ParamSpace3D.y_resolution box_negative < 0
               \/ ParamSpace3D.z_resolution box_negative < 0)%Z)
    by (right; left; simpl; lia).
  split; [exact H|].
  exact (@negative_resolution_is_ValueError reference_backend
           (fun _ => Raise NameError) box_negative true (initial_world ∅) H).
Defined.

(** ** The size of the sampled grid *)



(** ** An expression without free symbols *)

Section CompilerFurther.
Context `{B : Backend}.

(** X6. When the substitution leaves no free symbol at all, the compiled
    function ignores its arguments and returns one and the same scalar (a
    0-dimensional value), not an array of the shape of the mesh. *)
Theorem constant_expression_compiles_to_scalar (expr : Expr) (ps : ParamSpace3D.t)
    (l : positive) (d : dict) (w : World) :
  ParamSpace3D.fixed_param ps = PyRef l -> heap w !! l = Some d ->
  NoDup [ParamSpace3D.x ps; ParamSpace3D.y ps; ParamSpace3D.z ps] ->
  free_symbols (subs_dict d expr) = [] ->
  exists F V,
    get_numpy_func expr ps w = (Ok F, w)
    /\ shape V = [] /\ buf_length (buf V) = 1%nat
    /\ forall X Y Z, F [X; Y; Z] = Ok V.
Proof.
  intros Hf Hd Hnd Hfree.
  destruct (eval_fits [0%nat] [] (subs_dict d expr)) as (V & EV & HV0);
    [intros s v Hs; discriminate Hs|].
  destruct (eval_fits [1%nat] [] (subs_dict d expr)) as (V1 & EV1 & HV1);
    [intros s v Hs; discriminate Hs|].
  rewrite EV in EV1. injection EV1 as <-.
  assert (HV : shape V = [] /\ buf_length (buf V) = 1%nat).
  { destruct HV0 as [E0|HV]; [|exact HV].
    destruct HV1 as [E1|HV]; [congruence | exact HV]. }
  exists (compiled_body ps d expr), V.
  split; [apply (get_numpy_func_dict expr ps l d); assumption|].
  split; [exact (proj1 HV)|]. split; [exact (proj2 HV)|].
  intros X Y Z. unfold compiled_body. simpl length. simpl Nat.eqb. cbv iota.
  rewrite <- EV. apply eval_ext. rewrite Hfree. intros s [].
Qed.

End CompilerFurther.

(** ** The parameter loop of the planar extractor *)

(** X7. The loop over the parameters never raises: its [ValueError] branch
    cannot be reached.  It always returns the two axis symbols followed by
    the keys of the dictionary that are not axis symbols, in their order,
    together with the values of exactly those keys, position by position. *)
Theorem parameter_loop_never_raises (px py : Symbol) (d : dict) :
  exists ks fv,
    collect_params px py d ([px; py] ++ dict_keys d) [px; py] [] = Ok ([px; py] ++ ks, fv)
    /\ ks = List.filter (nonaxis px py) (dict_keys d)
    /\ length fv = length ks
    /\ forall i k, ks !! i = Some k ->
         k <> px /\ k <> py /\ is_Some (dict_get d k) /\ fv !! i = dict_get d k.
Proof.
  exists (List.filter (nonaxis px py) (dict_keys d)),
         (values_at d (List.filter (nonaxis px py) (dict_keys d))).
  split; [apply collect_params_all|]. split; [reflexivity|].
  destruct (values_at_lookup d (List.filter (nonaxis px py) (dict_keys d))
              (nonaxis_keys_in_dict px py d)) as [Hl Hi].
  split; [exact Hl|]. intros i k Hk.
  assert (Hin : In k (List.filter (nonaxis px py) (dict_keys d))).
  { apply list_elem_of_In. eapply list_elem_of_lookup_2, Hk. }
  pose proof (nonaxis_keys_in_dict px py d k Hin) as Hsome.
  apply filter_In in Hin. destruct Hin as [_ Hna].
  split; [intros ->; rewrite nonaxis_px in Hna; discriminate|].
  split; [intros ->; rewrite nonaxis_py in Hna; discriminate|].
  split; [exact Hsome | apply Hi, Hk].
Qed.

(** ** The planar field on its mesh *)

Lemma length_meshgrid_xy (xs ys : list Q) :
  length (flat_map (fun _ : Q => xs) ys) = size_of [length ys; length xs]
  /\ length (flat_map (fun yj : Q => map (fun _ : Q => yj) xs) ys)
     = size_of [length ys; length xs].
Proof.
  simpl. split.
  - rewrite (length_flat_map_uniform _ _ (length xs)) by reflexivity. lia.
  - rewrite (length_flat_map_uniform _ _ (length xs)) by (intros; apply length_map). lia.
Qed.

Lemma lookup_meshgrid_xy (xs ys : list Q) (r c : nat) (x y : Q) :
  ys !! r = Some y -> xs !! c = Some x ->
  flat_map (fun _ : Q => xs) ys !! (r * length xs + c)%nat = Some x
  /\ flat_map (fun yj : Q => map (fun _ : Q => yj) xs) ys !! (r * length xs + c)%nat
     = Some y.
Proof.
  intros Hy Hx. pose proof (lookup_lt_Some _ _ _ Hx) as Hc. split.
  - rewrite (lookup_flat_map_uniform _ _ (length xs)) by (reflexivity || exact Hc).
    rewrite Hy. simpl. exact Hx.
  - rewrite (lookup_flat_map_uniform _ _ (length xs))
      by ((intros; apply length_map) || exact Hc).
    rewrite Hy. simpl. rewrite lookup_map, Hx. reflexivity.
Qed.

(** X9. In the planar extractor the sampled field follows the mesh: when the
    expression, after the non-axis keys are replaced by their values,
    mentions an axis symbol and nothing but the two axis symbols, the field
    has one row per y sample and one column per x sample, and its entry in
    row [r], column [c] is the value of the expression at [(x_c, y_r)]. *)
Theorem planar_field_follows_the_mesh (func : Expr) (px py : Symbol) (d : dict)
    (lp : list Symbol) (fv : list pynum) (fn : Callable) (xs ys : list Q) :
  collect_params px py d ([px; py] ++ dict_keys d) [px; py] [] = Ok (lp, fv) ->
  lambdify lp func = Ok fn ->
  (forall s, In s (free_symbols (subs_dict (without_axes px py d) func)) ->
             In s [px; py]) ->
  free_symbols (subs_dict (without_axes px py d) func) <> [] ->
  exists Zv,
    fn ((meshgrid_xy xs ys).1 :: (meshgrid_xy xs ys).2 :: map scalar fv) = Ok Zv
    /\ shape Zv = [length ys; length xs]
    /\ forall r c x y, ys !! r = Some y -> xs !! c = Some x ->
         complex_view (buf Zv) !! (r * length xs + c)%nat
         = Some (pointwise2 px py (subs_dict (without_axes px py d) func) x y).
Proof.
  intros Hc Hl Hfree Hne. rewrite collect_params_all in Hc. injection Hc as <- <-.
  set (e := subs_dict (without_axes px py d) func) in *.
  set (ps := ParamSpace3D.mk px (0, 0) py (0, 0) px (0, 0) 0 0 0 PyNone).
  destruct (length_meshgrid_xy xs ys) as [LX LY].
  destruct (eval_elementwise ps [length ys; length xs]
              (flat_map (fun _ : Q => xs) ys)
              (flat_map (fun yj : Q => map (fun _ : Q => yj) xs) ys)
              (flat_map (fun _ : Q => xs) ys) LX LY LX e)
    as (V & EV & _ & FV & PV).
  { intros s Hs. destruct (Hfree s Hs) as [<-|[<-|[]]]; simpl; auto. }
  exists V. split; [|split; [exact (FV Hne)|]].
  - rewrite (planar_function_eval func px py d fn _ _ Hl). fold e.
    rewrite <- EV. apply eval_ext. intros s _. unfold ps. simpl.
    destruct (decide (px = s)); [reflexivity|].
    destruct (decide (py = s)); reflexivity.
  - intros r c x y Hy Hx.
    destruct (lookup_meshgrid_xy xs ys r c x y Hy Hx) as [GX GY].
    destruct (PV _ x y x GX GY GX) as (u & cv & Eu & _ & _ & Gu & GV).
    unfold elt in GV. rewrite (FV Hne), bget_cons in GV. rewrite GV. f_equal.
    unfold pointwise2.
    replace (eval [(px, scalar (PyFloat x)); (py, scalar (PyFloat y))] e) with (Ok u).
    + unfold elt, bget in Gu.
      destruct (shape u), (complex_view (buf u)); simpl in *; congruence.
    + rewrite <- Eu. apply eval_ext. intros s _. unfold scalar_env, ps. simpl.
      destruct (decide (px = s)); [reflexivity|].
      destruct (decide (py = s)); reflexivity.
Qed.

(** ** What the extractors do to the world *)

Section Effects.
Context `{B : Backend}.

(** X11. The planar extractor touches the world in one way only.  It never
    changes the heap or the shown plotters.  Either it fails before the grid
    has been sampled, and then it has printed nothing and opened no figure;
    or it has opened exactly one figure and printed either nothing or the
    one warning line.  A call that returns has opened exactly one figure. *)
Theorem planar_extractor_effects (func : Expr) (px py : Symbol) (xr yr : Q * Q)
    (l : positive) (res : Z) (title : option string) (levels : list Q) (w : World) :
  let r := plot_zero_contours func px py xr yr l res title levels w in
  heap (snd r) = heap w
  /\ shown (snd r) = shown w
  /\ ((is_ok (fst r) = false /\ snd r = w)
      \/ exists out, (out = [] \/ out = [warning])
                     /\ stdout (snd r) = stdout w ++ out
                     /\ open_figures (snd r) = open_figures w ++ [subplots]).
Proof.
  unfold plot_zero_contours, deref, mbind, mret, M_bind, M_ret, bind, ret, lift.
  destruct (heap w !! l) as [d|]; [|simpl; auto].
  destruct (collect_params _ _ _ _ _ _) as [[lp fv]|e]; [|simpl; auto].
  destruct (lambdify lp func) as [fn|e]; [|simpl; auto].
  destruct (linspace (fst xr) (snd xr) res) as [xs|e]; [|simpl; auto].
  destruct (linspace (fst yr) (snd yr) res) as [ys|e]; [|simpl; auto].
  simpl. destruct (fn _) as [Zv|e]; [|simpl; auto].
  unfold print, plt_subplots.
  destruct (iscomplexobj Zv); simpl; destruct (Axes_contour _ _ _ _ _); simpl;
    (split; [reflexivity|]; split; [reflexivity|]; right).
  - exists [warning]. auto.
  - exists [warning]. auto.
  - exists []. rewrite app_nil_r. auto.
  - exists []. rewrite app_nil_r. auto.
Qed.

(** X12. A negative resolution makes the planar extractor raise
    [ValueError] when it builds the x samples, before anything is evaluated,
    printed or opened (the parameter names being distinct, so that the
    function can be generated). *)
Theorem planar_negative_resolution (func : Expr) (px py : Symbol) (xr yr : Q * Q)
    (l : positive) (res : Z) (title : option string) (levels : list Q) (w : World)
    (d : dict) :
  heap w !! l = Some d ->
  NoDup ([px; py] ++ List.filter (nonaxis px py) (dict_keys d)) ->
  (res < 0)%Z ->
  plot_zero_contours func px py xr yr l res title levels w = (Raise ValueError, w).
Proof.
  intros Hd Hnd Hres.
  unfold plot_zero_contours, deref, mbind, mret, M_bind, M_ret, bind, ret, lift.
  rewrite Hd, collect_params_all, lambdify_NoDup by exact Hnd.
  unfold linspace. destruct (Z.ltb_spec res 0) as [_|?]; [reflexivity | lia].
Qed.

(** X13. The [plot] flag does not change what the volumetric extractor
    computes.  If the call without plotting fails, the call with plotting
    fails in the same way and shows nothing.  If it returns a triple, the
    call with plotting either returns the same triple, having shown exactly
    one plotter and changed nothing else, or fails in a plotter method
    without having shown anything. *)
Theorem plot_flag_keeps_the_result (F : Callable) (ps : ParamSpace3D.t) (w : World) :
  match fst (vis_complex_equation F ps false w) with
  | Raise e => vis_complex_equation F ps true w = (Raise e, w)
  | Ok t =>
      (exists p, vis_complex_equation F ps true w
                 = (Ok t, mk_World (heap w) (stdout w) (shown w ++ [p]) (open_figures w)))
      \/ (exists e, vis_complex_equation F ps true w = (Raise e, w))
  end.
Proof.
  unfold vis_complex_equation, mbind, mret, M_bind, M_ret, bind, ret, lift.
  destruct (sample_grid F ps) as [grid|e]; [|reflexivity].
  destruct (contour grid [0] "real") as [rc|e]; [|reflexivity].
  destruct (contour grid [0] "imag") as [ic|e]; [|reflexivity].
  destruct (intersection rc ic false false) as [[[c a] b]|e]; [|reflexivity].
  simpl. unfold render, Plotter_show, mbind, M_bind, bind, lift.
  destruct (set_scale _ _ _ _) as [p1|e]; [|right; eexists; reflexivity].
  destruct (add_mesh p1 c 1) as [p2|e]; [|right; eexists; reflexivity].
  destruct (add_mesh p2 _ 0) as [p3|e]; [|right; eexists; reflexivity].
  destruct (show_bounds p3 _ _ _) as [p4|e]; [|right; eexists; reflexivity].
  destruct (add_legend p4) as [p5|e]; [|right; eexists; reflexivity].
  destruct (add_text p5 _ _ _) as [p6|e]; [|right; eexists; reflexivity].
  left. exists p6. reflexivity.
Qed.

End Effects.

(** ** A real-valued function in the volumetric extractor *)

Lemma In_flatten_zeros (sh : list nat) (l : list Q) (p : nat) (v : Q) :
  flatten_F sh (map (fun _ => 0) l) !! p = Some v -> v = 0.
Proof.
  intros Hv.
  apply list_elem_of_lookup_2, list_elem_of_In, In_flatten_F, in_map_iff in Hv.
  destruct Hv as (c & <- & _). reflexivity.
Qed.

(** X14. When the function returns a float array on the mesh, the extractor
    attaches its values as ["real"] and an ["imag"] field that is zero at
    every lattice point. *)
Theorem real_output_has_zero_imag (F : Callable) (ps : ParamSpace3D.t)
    (xs ys zs l : list Q) :
  valid_resolutions ps -> ascending ps ->
  linspace (fst (ParamSpace3D.x_range ps)) (snd (ParamSpace3D.x_range ps))
           (ParamSpace3D.x_resolution ps) = Ok xs ->
  linspace (fst (ParamSpace3D.y_range ps)) (snd (ParamSpace3D.y_range ps))
           (ParamSpace3D.y_resolution ps) = Ok ys ->
  linspace (fst (ParamSpace3D.z_range ps)) (snd (ParamSpace3D.z_range ps))
           (ParamSpace3D.z_resolution ps) = Ok zs ->
  F [(meshgrid_ij xs ys zs).1.1; (meshgrid_ij xs ys zs).1.2; (meshgrid_ij xs ys zs).2]
  = Ok (mk_ndarray [length xs; length ys; length zs] (FloatBuf l)) ->
  length l = size_of [length xs; length ys; length zs] ->
  exists grid,
    sample_grid F ps = Ok grid
    /\ point_data grid !! "real"
       = Some (mk_ndarray [size_of [length xs; length ys; length zs]]
                 (FloatBuf (flatten_F [length xs; length ys; length zs] l)))
    /\ forall p, (p < Z.to_nat (n_points grid))%nat ->
         point_scalar grid "imag" p = Some 0.
Proof.
  intros (Rx & Ry & Rz) (Ax & Ay & Az) Exs Eys Ezs EF Ll.
  assert (Lxs : length xs = Z.to_nat (ParamSpace3D.x_resolution ps)).
  { destruct (linspace_length (fst (ParamSpace3D.x_range ps))
                (snd (ParamSpace3D.x_range ps)) (ParamSpace3D.x_resolution ps))
      as (l0 & E0 & L0); [lia|]. congruence. }
  assert (Lys : length ys = Z.to_nat (ParamSpace3D.y_resolution ps)).
  { destruct (linspace_length (fst (ParamSpace3D.y_range ps))
                (snd (ParamSpace3D.y_range ps)) (ParamSpace3D.y_resolution ps))
      as (l0 & E0 & L0); [lia|]. congruence. }
  assert (Lzs : length zs = Z.to_nat (ParamSpace3D.z_resolution ps)).
  { destruct (linspace_length (fst (ParamSpace3D.z_range ps))
                (snd (ParamSpace3D.z_range ps)) (ParamSpace3D.z_resolution ps))
      as (l0 & E0 & L0); [lia|]. congruence. }
  assert (En : Z.of_nat (size_of [length xs; length ys; length zs])
               = (ParamSpace3D.x_resolution ps * ParamSpace3D.y_resolution ps
                  * ParamSpace3D.z_resolution ps)%Z).
  { simpl. rewrite Lxs, Lys, Lzs. lia. }
  eexists. split; [|split].
  - unfold sample_grid. rewrite Exs, Eys, Ezs. simpl. simpl in EF. rewrite EF. simpl.
    rewrite !truediv_ok by lia. simpl.
    rewrite set_spacing_ok by (apply spacing_nonneg; assumption). simpl.
    unfold np_real, np_imag, call_flatten, flatten_order_F. cbn [buf shape]. simpl.
    erewrite setitem_points; [| reflexivity | exact En]. simpl.
    erewrite setitem_points; [| reflexivity | exact En]. simpl. reflexivity.
  - cbn [point_data]. rewrite lookup_insert_ne by discriminate.
    rewrite lookup_insert_eq. reflexivity.
  - intros p Hp. unfold point_scalar. cbn [point_data].
    rewrite lookup_insert_eq. cbn [buf].
    unfold n_points in Hp. cbn [dimensions] in Hp. rewrite <- En, Nat2Z.id in Hp.
    destruct (lookup_lt_is_Some_2
                (flatten_F [length xs; length ys; length zs] (map (fun _ => 0) l)) p)
      as [v Hv].
    { rewrite length_flatten_F; [exact Hp | rewrite length_map; exact Ll]. }
    transitivity (Some v); [exact Hv|]. f_equal. eapply In_flatten_zeros, Hv.
Qed.

Lemma real_output_has_zero_imag_witness :
  valid_resolutions box_2_3_4
  /\ ascending box_2_3_4
  /\ exists grid,
       sample_grid (compiled_body box_2_3_4 [] x_plus_y) box_2_3_4 = Ok grid
       /\ point_scalar grid "imag" 7 = Some 0.
Proof.
  split; [exact valid_box_2_3_4|]. split; [exact ascending_box_2_3_4|].
  destruct (linspace (fst (ParamSpace3D.x_range box_2_3_4))
              (snd (ParamSpace3D.x_range box_2_3_4)) (ParamSpace3D.x_resolution box_2_3_4))
    as [xs|e] eqn:Exs; [|vm_compute in Exs; discriminate Exs].
  destruct (linspace (fst (ParamSpace3D.y_range box_2_3_4))
              (snd (ParamSpace3D.y_range box_2_3_4)) (ParamSpace3D.y_resolution box_2_3_4))
    as [ys|e] eqn:Eys; [|vm_compute in Eys; discriminate Eys].
  destruct (linspace (fst (ParamSpace3D.z_range box_2_3_4))
              (snd (ParamSpace3D.z_range box_2_3_4)) (ParamSpace3D.z_resolution box_2_3_4))
    as [zs|e] eqn:Ezs; [|vm_compute in Ezs; discriminate Ezs].
  assert (EF : exists l,
             compiled_body box_2_3_4 [] x_plus_y
               [(meshgrid_ij xs ys zs).1.1; (meshgrid_ij xs ys zs).1.2;
                (meshgrid_ij xs ys zs).2]
             = Ok (mk_ndarray [length xs; length ys; length zs] (FloatBuf l))
             /\ length l = size_of [length xs; length ys; length zs]).
  { pose proof Exs as Exs'. pose proof Eys as Eys'. pose proof Ezs as Ezs'.
    vm_compute in Exs', Eys', Ezs'.
    injection Exs' as <-. injection Eys' as <-. injection Ezs' as <-.
    vm_compute. eexists. split; reflexivity. }
  destruct EF as (l & EF & Ll).
  destruct (real_output_has_zero_imag (compiled_body box_2_3_4 [] x_plus_y) box_2_3_4
              xs ys zs l valid_box_2_3_4 ascending_box_2_3_4 Exs Eys Ezs EF Ll)
    as (grid & Eg & _ & Hz).
  exists grid. split; [exact Eg|]. apply Hz.
  assert (E : sample_grid (compiled_body box_2_3_4 [] x_plus_y) box_2_3_4 = Ok grid)
    by exact Eg.
  vm_compute in E. injection E as <-. vm_compute. lia.
Defined.

(** ** Concrete runs of the further properties *)

Lemma constant_expression_compiles_to_scalar_witness :
  ParamSpace3D.fixed_param unit_box = PyRef 1
  /\ heap (@initial_world reference_backend heap_a_x) !! 1%positive = Some dict_a_x
  /\ NoDup [ParamSpace3D.x unit_box; ParamSpace3D.y unit_box; ParamSpace3D.z unit_box]
  /\ free_symbols (subs_dict dict_a_x x_plus_a) = []
  /\ exists F V,
       @get_numpy_func reference_backend x_plus_a unit_box (initial_world heap_a_x)
       = (Ok F, initial_world heap_a_x)
       /\ shape V = []
       /\ F [(meshgrid_ij [0; 1] [0; 2] [-1; 1]).1.1;
             (meshgrid_ij [0; 1] [0; 2] [-1; 1]).1.2;
             (meshgrid_ij [0; 1] [0; 2] [-1; 1]).2] = Ok V.
Proof.
  assert (H1 : ParamSpace3D.fixed_param unit_box = PyRef 1) by reflexivity.
  assert (H2 : heap (@initial_world reference_backend heap_a_x) !! 1%positive
               = Some dict_a_x) by reflexivity.
  assert (H3 : free_symbols (subs_dict dict_a_x x_plus_a) = []) by reflexivity.
  repeat (split; [first [assumption | exact NoDup_xyz]|]).
  destruct (@constant_expression_compiles_to_scalar reference_backend x_plus_a
              unit_box 1%positive dict_a_x (initial_world heap_a_x) H1 H2 NoDup_xyz H3)
    as (F & V & HF & HV & _ & Hcall).
  exists F, V. split; [exact HF|]. split; [exact HV | apply Hcall].
Defined.

Lemma parameter_loop_never_raises_witness :
  exists ks fv,
    collect_params "x" "y" dict_a_x (["x"%string; "y"%string] ++ dict_keys dict_a_x)
      ["x"%string; "y"%string] [] = Ok (["x"%string; "y"%string] ++ ks, fv)
    /\ ks = ["a"%string] /\ fv = [PyFloat 2].
Proof.
  destruct (parameter_loop_never_raises "x" "y" dict_a_x)
    as (ks & fv & Hc & Hks & Hlen & Hi).
  exists ks, fv. split; [exact Hc|].
  assert (Eks : ks = ["a"%string]) by (rewrite Hks; reflexivity).
  split; [exact Eks|]. subst ks.
  destruct (Hi 0%nat "a"%string eq_refl) as (_ & _ & _ & H0).
  destruct fv as [|v [|? ?]]; simpl in Hlen; try discriminate Hlen.
  simpl in H0. vm_compute in H0. injection H0 as ->. reflexivity.
Defined.

Lemma planar_field_follows_the_mesh_witness :
  collect_params "x" "y" dict_a_x (["x"%string; "y"%string] ++ dict_keys dict_a_x)
    ["x"%string; "y"%string] []
  = Ok (["x"%string; "y"%string; "a"%string], [PyFloat 2])
  /\ lambdify ["x"%string; "y"%string; "a"%string] x_plus_a = Ok x_plus_a_numeric
  /\ (forall s, In s (free_symbols (subs_dict (without_axes "x" "y" dict_a_x) x_plus_a)) ->
                In s ["x"%string; "y"%string])
  /\ free_symbols (subs_dict (without_axes "x" "y" dict_a_x) x_plus_a) <> []
  /\ exists Zv,
       x_plus_a_numeric ((meshgrid_xy [0; 1] [0; 1; 2]).1
                         :: (meshgrid_xy [0; 1] [0; 1; 2]).2 :: map scalar [PyFloat 2])
       = Ok Zv
       /\ shape Zv = [3; 2]%nat
       /\ complex_view (buf Zv) !! 5%nat
          = Some (pointwise2 "x" "y" (Add (Sym "x") (Const (PyFloat 2))) 1 2).
Proof.
  assert (H1 : collect_params "x" "y" dict_a_x
                 (["x"%string; "y"%string] ++ dict_keys dict_a_x)
                 ["x"%string; "y"%string] []
               = Ok (["x"%string; "y"%string; "a"%string], [PyFloat 2])) by reflexivity.
  assert (H2 : lambdify ["x"%string; "y"%string; "a"%string] x_plus_a
               = Ok x_plus_a_numeric) by reflexivity.
  assert (H3 : forall s,
             In s (free_symbols (subs_dict (without_axes "x" "y" dict_a_x) x_plus_a)) ->
             In s ["x"%string; "y"%string]) by (simpl; intros s [<-|[]]; auto).
  assert (H4 : free_symbols (subs_dict (without_axes "x" "y" dict_a_x) x_plus_a) <> [])
    by discriminate.
  repeat (split; [assumption|]).
  destruct (planar_field_follows_the_mesh x_plus_a "x" "y" dict_a_x _ _ _
              [0; 1] [0; 1; 2] H1 H2 H3 H4) as (Zv & HZ & Hs & Hv).
  exists Zv. split; [exact HZ|]. split; [exact Hs|].
  exact (Hv 2%nat 1%nat 1 2 eq_refl eq_refl).
Defined.

Lemma planar_negative_resolution_witness :
  heap (@initial_world reference_backend heap_a_x) !! 1%positive = Some dict_a_x
  /\ NoDup (["x"%string; "y"%string]
            ++ List.filter (nonaxis "x" "y") (dict_keys dict_a_x))
  /\ (-1 < 0)%Z
  /\ @plot_zero_contours reference_backend x_plus_a "x" "y" (-5, 5) (-5, 5) 1 (-1)
       None [0] (initial_world heap_a_x)
     = (Raise ValueError, initial_world heap_a_x).
Proof.
  assert (H1 : heap (@initial_world reference_backend heap_a_x) !! 1%positive
               = Some dict_a_x) by reflexivity.
  assert (H2 : NoDup (["x"%string; "y"%string]
                      ++ List.filter (nonaxis "x" "y") (dict_keys dict_a_x)))
    by (apply (bool_decide_unpack _); vm_compute; exact I).
  assert (H3 : (-1 < 0)%Z) by lia.
  repeat (split; [assumption|]).
  exact (@planar_negative_resolution reference_backend x_plus_a "x" "y" (-5, 5) (-5, 5)
           1%positive (-1)%Z None [0] (initial_world heap_a_x) dict_a_x H1 H2 H3).
Defined.

(** ** The order of the fixed parameters *)

Lemma dict_get_Permutation (d d' : dict) :
  Permutation d d' -> NoDup (dict_keys d) ->
  forall s, dict_get d s = dict_get d' s.
Proof.
  induction 1 as [|[k v] d d' Hp IH|[k1 v1] [k2 v2] d|d d' d'' H1 IH1 H2 IH2];
    intros Hnd s.
  - reflexivity.
  - simpl. destruct (decide (k = s)); [reflexivity|].
    apply IH. simpl in Hnd. apply NoDup_cons in Hnd. tauto.
  - simpl. simpl in Hnd. apply NoDup_cons in Hnd. destruct Hnd as [Hnin _].
    destruct (decide (k2 = s)) as [->|]; [|reflexivity].
    destruct (decide (k1 = s)) as [->|]; [|reflexivity].
    exfalso. apply Hnin. apply list_elem_of_In. simpl. auto.
  - rewrite IH1 by exact Hnd. apply IH2.
    unfold dict_keys in *.
    assert (Hk : Permutation (map fst d) (map fst d')) by apply Permutation_map, H1.
    rewrite <- Hk. exact Hnd.
Qed.

Lemma subs_dict_ext (d d' : dict) (e : Expr) :
  (forall s, dict_get d s = dict_get d' s) -> subs_dict d e = subs_dict d' e.
Proof.
  intros H. induction e as [s|v|a IHa b IHb|a IHa b IHb]; simpl.
  - rewrite H. reflexivity.
  - reflexivity.
  - rewrite IHa, IHb. reflexivity.
  - rewrite IHa, IHb. reflexivity.
Qed.

Lemma without_axes_Permutation (px py : Symbol) (d d' : dict) :
  Permutation d d' -> Permutation (without_axes px py d) (without_axes px py d').
Proof.
  induction 1 as [|[k v] d d' Hp IH|[k1 v1] [k2 v2] d|d d' d'' H1 IH1 H2 IH2]; simpl.
  - constructor.
  - destruct (nonaxis px py k); [constructor|]; exact IH.
  - destruct (nonaxis px py k1), (nonaxis px py k2); try reflexivity. constructor.
  - etransitivity; eassumption.
Qed.

Lemma NoDup_keys_without_axes (px py : Symbol) (d : dict) :
  NoDup (dict_keys d) -> NoDup (dict_keys (without_axes px py d)).
Proof.
  intros Hnd. rewrite dict_keys_without_axes.
  induction Hnd as [|k ks Hnin Hnd IH]; simpl; [constructor|].
  destruct (nonaxis px py k); [|exact IH]. constructor; [|exact IH].
  intros Hin. apply Hnin. apply list_elem_of_In. apply list_elem_of_In in Hin.
  apply filter_In in Hin. tauto.
Qed.

Section DictOrder.
Context `{B : Backend}.

(** X15. The order in which the fixed parameters were inserted in the
    dictionary does not matter: for two dictionaries with the same entries
    and no repeated key, the compiler returns the same function and the
    planar extractor the same outcome. *)
Theorem fixed_parameter_order_is_irrelevant (d d' : dict) :
  Permutation d d' -> NoDup (dict_keys d) ->
  (forall expr ps l w w',
     ParamSpace3D.fixed_param ps = PyRef l ->
     heap w !! l = Some d -> heap w' !! l = Some d' ->
     fst (get_numpy_func expr ps w) = fst (get_numpy_func expr ps w'))
  /\ (forall func px py xr yr l res title levels w w',
        heap w !! l = Some d -> heap w' !! l = Some d' ->
        fst (plot_zero_contours func px py xr yr l res title levels w)
        = fst (plot_zero_contours func px py xr yr l res title levels w')).
Proof.
  intros Hp Hnd. split.
  - intros expr ps l w w' Hf Hd Hd'.
    rewrite !get_numpy_func_run, Hf, Hd, Hd'. simpl.
    rewrite (subs_dict_ext d d' expr (dict_get_Permutation d d' Hp Hnd)). reflexivity.
  - intros func px py xr yr l res title levels w w' Hd Hd'.
    rewrite (plot_zero_contours_outcome _ _ _ _ _ _ _ _ _ _ _ Hd).
    rewrite (plot_zero_contours_outcome _ _ _ _ _ _ _ _ _ _ _ Hd').
    unfold planar_outcome. rewrite !collect_params_all.
    unfold mbind, result_bind, rbind.
    assert (Hk : Permutation (List.filter (nonaxis px py) (dict_keys d))
                             (List.filter (nonaxis px py) (dict_keys d'))).
    { rewrite <- !dict_keys_without_axes. unfold dict_keys.
      apply Permutation_map, without_axes_Permutation, Hp. }
    destruct (lambdify ([px; py] ++ List.filter (nonaxis px py) (dict_keys d)) func)
      as [fn|e] eqn:El.
    + destruct (lambdify ([px; py] ++ List.filter (nonaxis px py) (dict_keys d')) func)
        as [fn'|e'] eqn:El'.
      * destruct (linspace (fst xr) (snd xr) res) as [xs|e]; [|reflexivity].
        destruct (linspace (fst yr) (snd yr) res) as [ys|e]; [|reflexivity].
        rewrite (planar_function_eval func px py d fn _ _ El).
        rewrite (planar_function_eval func px py d' fn' _ _ El').
        rewrite (subs_dict_ext (without_axes px py d) (without_axes px py d') func);
          [reflexivity|].
        apply dict_get_Permutation;
          [apply without_axes_Permutation, Hp | apply NoDup_keys_without_axes, Hnd].
      * exfalso. unfold lambdify in El, El'.
        destruct (bool_decide (NoDup ([px; py] ++ List.filter (nonaxis px py) (dict_keys d))))
          eqn:Hn; [|discriminate].
        apply bool_decide_eq_true_1 in Hn.
        rewrite bool_decide_eq_true_2 in El'; [discriminate|].
        rewrite <- Hk. exact Hn.
    + unfold lambdify in El |- *.
      destruct (bool_decide (NoDup ([px; py] ++ List.filter (nonaxis px py) (dict_keys d))))
        eqn:Hn; [discriminate|].
      apply bool_decide_eq_false_1 in Hn.
      rewrite bool_decide_eq_false_2; [injection El as <-; reflexivity|].
      intros Hn'. apply Hn. rewrite Hk. exact Hn'.
Qed.

End DictOrder.

Lemma fixed_parameter_order_is_irrelevant_witness :
  Permutation dict_a_x dict_x_a /\ NoDup (dict_keys dict_a_x)
  /\ fst (@get_numpy_func reference_backend x_plus_a unit_box (initial_world heap_a_x))
     = fst (@get_numpy_func reference_backend x_plus_a unit_box (initial_world heap_x_a))
  /\ fst (@plot_zero_contours reference_backend x_plus_a "y" "z" (0, 1) (0, 1)
            1%positive 2 None [0] (initial_world heap_a_x))
     = fst (@plot_zero_contours reference_backend x_plus_a "y" "z" (0, 1) (0, 1)
            1%positive 2 None [0] (initial_world heap_x_a)).
Proof.
  assert (Hp : Permutation dict_a_x dict_x_a) by apply perm_swap.
  assert (Hn : NoDup (dict_keys dict_a_x)).
  { apply (bool_decide_eq_true_1 (NoDup (dict_keys dict_a_x))). vm_compute. reflexivity. }
  split; [exact Hp|]. split; [exact Hn|].
  destruct (@fixed_parameter_order_is_irrelevant reference_backend dict_a_x dict_x_a Hp Hn)
    as [H1 H2].
  split.
  - apply (H1 x_plus_a unit_box 1%positive); reflexivity.
  - apply H2; reflexivity.
Defined.

(** ** The scripts' transfer matrices *)

Lemma Gnorm_nonzero (a : Gauss) : a <> (0%Qc, 0%Qc) -> Gnorm a <> 0%Qc.
Proof.
  destruct a as [x y]. unfold Gnorm. cbn [fst snd]. intros Hne Hn. apply Hne.
  assert (Hq : ((x * x + y * y)%Qc == 0)%Q) by (rewrite Hn; reflexivity).
  unfold Qcplus, Qcmult, Q2Qc in Hq. cbn [this] in Hq. rewrite !Qred_correct in Hq.
  assert (Hx : (x == 0)%Q) by nra.
  assert (Hy : (y == 0)%Q) by nra.
  f_equal; apply Qc_is_canon; assumption.
Qed.

Ltac gauss_ring :=
  intros; repeat match goal with a : (_ * _)%type |- _ => destruct a end;
  unfold Gdiv, Gsub, Gadd, Gmul, Gopp; cbn [fst snd]; f_equal; ring.

Lemma Gauss_ring :
  ring_theory (0%Qc, 0%Qc) (1%Qc, 0%Qc) Gadd Gmul Gsub Gopp eq.
Proof.
  constructor.
  - intros x. gauss_ring.
  - intros x y. gauss_ring.
  - intros x y z. gauss_ring.
  - intros x. gauss_ring.
  - intros x y. gauss_ring.
  - intros x y z. gauss_ring.
  - intros x y z. gauss_ring.
  - reflexivity.
  - intros x. gauss_ring.
Qed.

Lemma Gauss_is_field : CPA.is_field Gauss_scalars.
Proof.
  constructor.
  - exact Gauss_ring.
  - intros H. inversion H.
  - reflexivity.
  - intros p Hp. pose proof (Gnorm_nonzero p Hp) as Hn.
    destruct p as [x y]. cbn in *. unfold Gmul, Ginv, Gnorm in *. cbn [fst snd] in *.
    f_equal; field; assumption.
Qed.

Section ScriptAlgebra.
Import CPA.
Context `{F : Scalars}.
Hypothesis HF : is_field F.
Variables (R X Z_0 switch_factor cos_kd sin_kd : K).
Local Open Scope K_scope.

Let k_field : field_theory k0 k1 kadd kmul ksub kopp kdiv kinv (@eq K) := HF.
Add Field Kf : k_field.

Lemma transfer_entries_mirror :
  Laser.A_Tr R X Z_0 switch_factor cos_kd sin_kd
  = Laser.D_Tl R X Z_0 switch_factor cos_kd sin_kd
  /\ Laser.B_Tr R X Z_0 switch_factor cos_kd sin_kd
     = Laser.B_Tl R X Z_0 switch_factor cos_kd sin_kd
  /\ Laser.C_Tr R X Z_0 switch_factor cos_kd sin_kd
     = Laser.C_Tl R X Z_0 switch_factor cos_kd sin_kd
  /\ Laser.D_Tr R X Z_0 switch_factor cos_kd sin_kd
     = Laser.A_Tl R X Z_0 switch_factor cos_kd sin_kd.
Proof.
  unfold Laser.A_Tr, Laser.B_Tr, Laser.C_Tr, Laser.D_Tr,
    Laser.A_Tl, Laser.B_Tl, Laser.C_Tl, Laser.D_Tl,
    Laser.M_Tr, Laser.M_Tl, Laser.M_loss, Laser.M_gain, Laser.M_TL, matmul.
  cbn [m00 m01 m10 m11]. repeat split; ring.
Qed.

(** X16. Reciprocity in [scripts/1-CPA-laser.py]: the transfer matrix for
    incidence from the right is the one for incidence from the left with its
    diagonal entries exchanged, so the denominator the script keeps as a
    comment, [p_r], equals [p_l], the one it uses for both reflection
    coefficients and for the transmission. *)
Theorem reciprocity_of_the_denominator :
  Laser.M_Tr R X Z_0 switch_factor cos_kd sin_kd
  = mat (Laser.D_Tl R X Z_0 switch_factor cos_kd sin_kd)
        (Laser.B_Tl R X Z_0 switch_factor cos_kd sin_kd)
        (Laser.C_Tl R X Z_0 switch_factor cos_kd sin_kd)
        (Laser.A_Tl R X Z_0 switch_factor cos_kd sin_kd)
  /\ Laser.p_r R X Z_0 switch_factor cos_kd sin_kd
     = Laser.p_l R X Z_0 switch_factor cos_kd sin_kd.
Proof.
  destruct transfer_entries_mirror as (Ha & Hb & Hc & Hd). split.
  - rewrite <- Ha, <- Hb, <- Hc, <- Hd.
    unfold Laser.A_Tr, Laser.B_Tr, Laser.C_Tr, Laser.D_Tr.
    destruct (Laser.M_Tr R X Z_0 switch_factor cos_kd sin_kd). reflexivity.
  - unfold Laser.p_r, Laser.p_l. rewrite Ha, Hb, Hc, Hd. ring.
Qed.

(** X17. The two ways of computing the reverse reflection that
    [scripts/1-CPA-laser.py] keeps as a commented check agree: [fct1], taken
    from the left-incidence matrix, equals [fct2], which is [q_r]; hence
    [r_r] is [fct1 / p]. *)
Theorem reverse_reflection_from_left_matrix :
  Laser.fct1 R X Z_0 switch_factor cos_kd sin_kd
  = Laser.fct2 R X Z_0 switch_factor cos_kd sin_kd
  /\ Laser.r_r R X Z_0 switch_factor cos_kd sin_kd
     = Laser.fct1 R X Z_0 switch_factor cos_kd sin_kd
       / Laser.p R X Z_0 switch_factor cos_kd sin_kd.
Proof.
  assert (E : Laser.fct1 R X Z_0 switch_factor cos_kd sin_kd
              = Laser.fct2 R X Z_0 switch_factor cos_kd sin_kd).
  { unfold Laser.fct1, Laser.fct2.
    destruct transfer_entries_mirror as (-> & -> & -> & ->). ring. }
  split; [exact E|]. rewrite E. reflexivity.
Qed.

(** X18. The zero function of [scripts/2-CPA-laser-simp.py] and
    [scripts/CPA/1-CPA-laser.py] is [q_l * q_r - 4] for the numerators of
    [scripts/1-CPA-laser.py]; where the pole function does not vanish, the
    determinant [t * t - r_r * r_l] of the scattering matrix [S] is
    [- zero_func / pole_func ** 2], so the zero function vanishes exactly
    where [S] is singular. *)
Theorem zero_function_is_the_scattering_determinant :
  Simp.zero_func R X Z_0 switch_factor cos_kd sin_kd
  = Laser.q_l R X Z_0 switch_factor cos_kd sin_kd
    * Laser.q_r R X Z_0 switch_factor cos_kd sin_kd - 4
  /\ (Simp.pole_func R X Z_0 switch_factor cos_kd sin_kd <> 0 ->
      let S := Laser.S R X Z_0 switch_factor cos_kd sin_kd in
      m00 S * m11 S - m01 S * m10 S
      = - Simp.zero_func R X Z_0 switch_factor cos_kd sin_kd
        / (Simp.pole_func R X Z_0 switch_factor cos_kd sin_kd
           * Simp.pole_func R X Z_0 switch_factor cos_kd sin_kd)
      /\ (Simp.zero_func R X Z_0 switch_factor cos_kd sin_kd = 0
          <-> m00 S * m11 S - m01 S * m10 S = 0)).
Proof.
  assert (E : Simp.zero_func R X Z_0 switch_factor cos_kd sin_kd
              = Laser.q_l R X Z_0 switch_factor cos_kd sin_kd
                * Laser.q_r R X Z_0 switch_factor cos_kd sin_kd - 4).
  { unfold Laser.q_l, Laser.q_r.
    destruct transfer_entries_mirror as (-> & -> & -> & ->).
    change (Simp.zero_func R X Z_0 switch_factor cos_kd sin_kd)
      with ((Laser.B_Tl R X Z_0 switch_factor cos_kd sin_kd / Z_0
             - Laser.C_Tl R X Z_0 switch_factor cos_kd sin_kd * Z_0)
            * (Laser.B_Tl R X Z_0 switch_factor cos_kd sin_kd / Z_0
               - Laser.C_Tl R X Z_0 switch_factor cos_kd sin_kd * Z_0)
            - (Laser.A_Tl R X Z_0 switch_factor cos_kd sin_kd
               - Laser.D_Tl R X Z_0 switch_factor cos_kd sin_kd)
              * (Laser.A_Tl R X Z_0 switch_factor cos_kd sin_kd
                 - Laser.D_Tl R X Z_0 switch_factor cos_kd sin_kd) - 4).
    ring. }
  split; [exact E|]. intros Hp S.
  assert (Ed : m00 S * m11 S - m01 S * m10 S
               = - Simp.zero_func R X Z_0 switch_factor cos_kd sin_kd
                 / (Simp.pole_func R X Z_0 switch_factor cos_kd sin_kd
                    * Simp.pole_func R X Z_0 switch_factor cos_kd sin_kd)).
  { rewrite E. subst S. unfold Laser.S, Laser.t, Laser.r_r, Laser.r_l. cbn [m00 m01 m10 m11].
    change (Laser.p R X Z_0 switch_factor cos_kd sin_kd)
      with (Simp.pole_func R X Z_0 switch_factor cos_kd sin_kd).
    field. exact Hp. }
  split; [exact Ed|]. rewrite Ed. split.
  - intros ->. field. exact Hp.
  - intros Hz.
    transitivity
      (- (- Simp.zero_func R X Z_0 switch_factor cos_kd sin_kd
          / (Simp.pole_func R X Z_0 switch_factor cos_kd sin_kd
             * Simp.pole_func R X Z_0 switch_factor cos_kd sin_kd))
       * (Simp.pole_func R X Z_0 switch_factor cos_kd sin_kd
          * Simp.pole_func R X Z_0 switch_factor cos_kd sin_kd)).
    + field. exact Hp.
    + rewrite Hz. ring.
Qed.

(** X19. With [switch_factor = 1] the two resonators of
    [scripts/1-CPA-laser.py] have the same impedance, the device is its own
    mirror image, and the two reflection coefficients coincide. *)
Theorem equal_resonators_reflect_equally :
  switch_factor = 1 ->
  Laser.Z2 R X switch_factor = Laser.Z1 R X
  /\ Laser.M_Tr R X Z_0 switch_factor cos_kd sin_kd
     = Laser.M_Tl R X Z_0 switch_factor cos_kd sin_kd
  /\ Laser.r_r R X Z_0 switch_factor cos_kd sin_kd
     = Laser.r_l R X Z_0 switch_factor cos_kd sin_kd.
Proof.
  intros ->.
  assert (E : Laser.Z2 R X 1 = Laser.Z1 R X) by (unfold Laser.Z2, Laser.Z1; ring).
  assert (EM : Laser.M_Tr R X Z_0 1 cos_kd sin_kd = Laser.M_Tl R X Z_0 1 cos_kd sin_kd).
  { unfold Laser.M_Tr, Laser.M_Tl, Laser.M_gain, Laser.M_loss, Laser.Y2, Laser.Y1.
    rewrite E. reflexivity. }
  split; [exact E|]. split; [exact EM|].
  unfold Laser.r_r, Laser.r_l, Laser.q_r, Laser.q_l,
    Laser.A_Tr, Laser.B_Tr, Laser.C_Tr, Laser.D_Tr,
    Laser.A_Tl, Laser.B_Tl, Laser.C_Tl, Laser.D_Tl.
  rewrite EM. reflexivity.
Qed.

End ScriptAlgebra.

(** ** Concrete runs of the scripts' algebra

    The device with [Z1 = 1 + I/2], [Z_0 = 50], [cos(kd) = 3/5] and
    [sin(kd) = 4/5], with [switch_factor] equal to [-1] or to [1]. *)

Lemma reciprocity_of_the_denominator_witness :
  CPA.is_field Gauss_scalars
  /\ @CPA.Laser.p_r Gauss_scalars (Greal 1) (Greal (1 # 2)) (Greal 50) (Greal (-1))
       (Greal (3 # 5)) (Greal (4 # 5))
     = @CPA.Laser.p_l Gauss_scalars (Greal 1) (Greal (1 # 2)) (Greal 50) (Greal (-1))
         (Greal (3 # 5)) (Greal (4 # 5)).
Proof.
  split; [exact Gauss_is_field|].
  exact (proj2 (@reciprocity_of_the_denominator Gauss_scalars Gauss_is_field
                  (Greal 1) (Greal (1 # 2)) (Greal 50) (Greal (-1))
                  (Greal (3 # 5)) (Greal (4 # 5)))).
Defined.

Lemma reverse_reflection_from_left_matrix_witness :
  CPA.is_field Gauss_scalars
  /\ @CPA.Laser.fct1 Gauss_scalars (Greal 1) (Greal (1 # 2)) (Greal 50) (Greal (-1))
       (Greal (3 # 5)) (Greal (4 # 5))
     = @CPA.Laser.fct2 Gauss_scalars (Greal 1) (Greal (1 # 2)) (Greal 50) (Greal (-1))
         (Greal (3 # 5)) (Greal (4 # 5)).
Proof.
  split; [exact Gauss_is_field|].
  exact (proj1 (@reverse_reflection_from_left_matrix Gauss_scalars Gauss_is_field
                  (Greal 1) (Greal (1 # 2)) (Greal 50) (Greal (-1))
                  (Greal (3 # 5)) (Greal (4 # 5)))).
Defined.

Lemma zero_function_is_the_scattering_determinant_witness :
  CPA.is_field Gauss_scalars
  /\ @CPA.Simp.pole_func Gauss_scalars (Greal 1) (Greal (1 # 2)) (Greal 50) (Greal (-1))
       (Greal (3 # 5)) (Greal (4 # 5)) <> (0%Qc, 0%Qc)
  /\ (let S := @CPA.Laser.S Gauss_scalars (Greal 1) (Greal (1 # 2)) (Greal 50)
                 (Greal (-1)) (Greal (3 # 5)) (Greal (4 # 5)) in
      @CPA.Simp.zero_func Gauss_scalars (Greal 1) (Greal (1 # 2)) (Greal 50) (Greal (-1))
        (Greal (3 # 5)) (Greal (4 # 5)) = (0%Qc, 0%Qc)
      <-> Gsub (Gmul (CPA.m00 S) (CPA.m11 S)) (Gmul (CPA.m01 S) (CPA.m10 S))
          = (0%Qc, 0%Qc)).
Proof.
  assert (Hp : @CPA.Simp.pole_func Gauss_scalars (Greal 1) (Greal (1 # 2)) (Greal 50)
                 (Greal (-1)) (Greal (3 # 5)) (Greal (4 # 5)) <> (0%Qc, 0%Qc)).
  { intros E. apply (f_equal (fun g => this (fst g))) in E. vm_compute in E. discriminate. }
  split; [exact Gauss_is_field|]. split; [exact Hp|].
  exact (proj2 (proj2 (@zero_function_is_the_scattering_determinant Gauss_scalars
                         Gauss_is_field (Greal 1) (Greal (1 # 2)) (Greal 50) (Greal (-1))
                         (Greal (3 # 5)) (Greal (4 # 5))) Hp)).
Defined.

Lemma equal_resonators_reflect_equally_witness :
  CPA.is_field Gauss_scalars
  /\ Greal 1 = (1%Qc, 0%Qc)
  /\ @CPA.Laser.r_r Gauss_scalars (Greal 1) (Greal (1 # 2)) (Greal 50) (Greal 1)
       (Greal (3 # 5)) (Greal (4 # 5))
     = @CPA.Laser.r_l Gauss_scalars (Greal 1) (Greal (1 # 2)) (Greal 50) (Greal 1)
         (Greal (3 # 5)) (Greal (4 # 5)).
Proof.
  split; [exact Gauss_is_field|]. split; [reflexivity|].
  exact (proj2 (proj2 (@equal_resonators_reflect_equally Gauss_scalars Gauss_is_field
                         (Greal 1) (Greal (1 # 2)) (Greal 50) (Greal 1)
                         (Greal (3 # 5)) (Greal (4 # 5)) eq_refl))).
Defined.
